(** * The Azure blob driver of the Go CDK ([blob/azureblob/azureblob.go])

    A shallow embedding of the driver's key escaping, error classification,
    copy polling, paged listing, URL signing and streaming writer, with the
    properties its specification states about them. *)

From Stdlib Require Import ZArith NArith Ascii String Hexadecimal HexadecimalN.
From Stdlib Require DecimalString DecimalN.
From stdpp Require Import base tactics option list strings gmap sorting.

Local Open Scope N_scope.

(** ** Go strings as code points

    The escaper works on [[]rune(s)].  A key is a UTF-8 string, which is the
    same thing as the sequence of its code points (none of them a surrogate,
    none beyond U+10FFFF); [len(s)] counts the bytes of the encoding, one to
    four for each code point. *)

Definition rune := N.
Definition gostring := list rune.

(** The code points of an ASCII literal. *)
Definition str (s : string) : gostring :=
  map N_of_ascii (list_ascii_of_string s).

(** [utf8.RuneLen]: bytes taken by the encoding of a code point. *)
Definition RuneLen (c : rune) : Z :=
  if c <? 0x80 then 1%Z
  else if c <? 0x800 then 2%Z
  else if c <? 0x10000 then 3%Z
  else 4%Z.

(** [len(s)] of a string given by its code points. *)
Fixpoint len (s : gostring) : Z :=
  match s with
  | [] => 0%Z
  | c :: s' => (RuneLen c + len s')%Z
  end.

(** A string all of whose code points take one byte. *)
Definition single_byte (s : gostring) : bool := forallb (λ c, c <? 0x80) s.

(** [r[i]] on a slice of runes, for an index in range. *)
Definition at_ (r : list rune) (i : nat) : rune := nth i r 0.

(** ** [gocloud.dev/internal/escape]

    Modelled from the spec: the package is not among the sources.  What the
    specification says of it is that each escaped code point is replaced by a
    marker [__0x<hex>__] with its code point in hexadecimal, and that
    unescaping reverses the markers it recognises and passes everything else
    through unchanged. *)

Module escape.

(** The digits of a hexadecimal numeral as code points, lower case. *)
Fixpoint digits_of_uint (d : Hexadecimal.uint) : gostring :=
  match d with
  | Nil => []
  | D0 d => 48 :: digits_of_uint d
  | D1 d => 49 :: digits_of_uint d
  | D2 d => 50 :: digits_of_uint d
  | D3 d => 51 :: digits_of_uint d
  | D4 d => 52 :: digits_of_uint d
  | D5 d => 53 :: digits_of_uint d
  | D6 d => 54 :: digits_of_uint d
  | D7 d => 55 :: digits_of_uint d
  | D8 d => 56 :: digits_of_uint d
  | D9 d => 57 :: digits_of_uint d
  | Da d => 97 :: digits_of_uint d
  | Db d => 98 :: digits_of_uint d
  | Dc d => 99 :: digits_of_uint d
  | Dd d => 100 :: digits_of_uint d
  | De d => 101 :: digits_of_uint d
  | Df d => 102 :: digits_of_uint d
  end.

(** One hexadecimal digit read from a code point, either case. *)
Definition digit_of_rune (c : rune) : option (Hexadecimal.uint → Hexadecimal.uint) :=
  match c with
  | 48 => Some D0 | 49 => Some D1 | 50 => Some D2 | 51 => Some D3
  | 52 => Some D4 | 53 => Some D5 | 54 => Some D6 | 55 => Some D7
  | 56 => Some D8 | 57 => Some D9
  | 97 | 65 => Some Da | 98 | 66 => Some Db | 99 | 67 => Some Dc
  | 100 | 68 => Some Dd | 101 | 69 => Some De | 102 | 70 => Some Df
  | _ => None
  end.

Fixpoint uint_of_digits (l : gostring) : option Hexadecimal.uint :=
  match l with
  | [] => Some Nil
  | c :: l' =>
      match digit_of_rune c, uint_of_digits l' with
      | Some D, Some d => Some (D d)
      | _, _ => None
      end
  end.

(** Modelled from the spec: the [<hex>] of a marker, the code point in
    hexadecimal. *)
Definition hex (c : rune) : gostring := digits_of_uint (N.to_hex_uint c).

(** Modelled from the spec: [<hex>] read back, which takes at least one
    digit and nothing but digits. *)
Definition parse_hex (l : gostring) : option rune :=
  match l with
  | [] => None
  | _ => N.of_hex_uint <$> uint_of_digits l
  end.

Definition marker_open : gostring := str "__0x".
Definition marker_close : gostring := str "__".

(** Modelled from the spec: the marker that stands for an escaped code
    point. *)
Definition marker (c : rune) : gostring := marker_open ++ hex c ++ marker_close.

Fixpoint escape_from (shouldEscape : list rune → nat → bool)
    (runes : list rune) (i : nat) (rest : list rune) : gostring :=
  match rest with
  | [] => []
  | c :: rest' =>
      (if shouldEscape runes i then marker c else [c])
        ++ escape_from shouldEscape runes (S i) rest'
  end.

(** Modelled from the spec: [escape.HexEscape], whose package is not among
    the sources.  The runes of [s] are scanned left to right; each one for
    which [shouldEscape] answers true, asked with the whole slice and the
    index, is replaced by the marker [__0x<hex>__] of its code point, and
    every other rune is kept. *)
Definition HexEscape (s : gostring) (shouldEscape : list rune → nat → bool) : gostring :=
  escape_from shouldEscape s 0 s.

(** [strip p l]: what follows [p] at the head of [l], if [p] is there. *)
Fixpoint strip (p l : gostring) : option gostring :=
  match p, l with
  | [], _ => Some l
  | a :: p', b :: l' => if a =? b then strip p' l' else None
  | _ :: _, [] => None
  end.

(** The runes up to the next ['_'], and what is left from it on. *)
Fixpoint take_digits (l : gostring) : gostring * gostring :=
  match l with
  | [] => ([], [])
  | c :: l' =>
      if c =? 95 then ([], l)
      else let '(d, r) := take_digits l' in (c :: d, r)
  end.

(** Modelled from the spec: a marker recognised at the head of [r], with its
    code point and the runes after it. *)
Definition unescape (r : gostring) : option (rune * gostring) :=
  match strip marker_open r with
  | None => None
  | Some body =>
      let '(digits, rest) := take_digits body in
      match strip marker_close rest, parse_hex digits with
      | Some rest', Some c => Some (c, rest')
      | _, _ => None
      end
  end.

Fixpoint unescape_all (fuel : nat) (r : gostring) : gostring :=
  match fuel, r with
  | _, [] => []
  | O, _ => r
  | S fuel', c :: r' =>
      match unescape r with
      | Some (c', rest) => c' :: unescape_all fuel' rest
      | None => c :: unescape_all fuel' r'
      end
  end.

(** Modelled from the spec: [escape.HexUnescape], whose package is not among
    the sources.  Scanning left to right, a marker that is recognised is
    replaced by its code point and everything else passes through unchanged.
    One step of fuel is spent for each position visited, so the length of
    the string is always enough. *)
Definition HexUnescape (s : gostring) : gostring := unescape_all (length s) s.

End escape.

(** ** [escapeKey] and [unescapeKey] *)

(** The predicate [escapeKey] hands to [HexEscape]. *)
Definition shouldEscapeKey (key : gostring) (isPrefix : bool)
    (r : list rune) (i : nat) : bool :=
  let c := at_ r i in
  if c =? 92 (* '\\' *) then true
  else if (c <? 32) || (c =? 127) then true
  else if negb isPrefix && (Z.of_nat i =? len key - 1)%Z && (c =? 47 (* '/' *)) then true
  else if (1 <? i)%nat && (at_ r i =? 47) && (at_ r (i - 1) =? 46 (* '.' *))
            && (at_ r (i - 2) =? 46) then true
  else false.

Definition escapeKey (key : gostring) (isPrefix : bool) : gostring :=
  escape.HexEscape key (shouldEscapeKey key isPrefix).

Definition unescapeKey (key : gostring) : gostring := escape.HexUnescape key.

(** A key in which [__0x], the opening of a marker, occurs somewhere. *)
Definition opens_marker (k : gostring) : bool :=
  match escape.strip escape.marker_open k with
  | Some _ => true
  | None => false
  end.

Fixpoint has_marker_open (k : gostring) : bool :=
  match k with
  | [] => false
  | _ :: k' => opens_marker k || has_marker_open k'
  end.


(** ** Errors and their portable codes *)

Module gcerrors.
(** [gcerrors.ErrorCode]. *)
Inductive ErrorCode : Set :=
  | OK | Unknown | NotFound | AlreadyExists | InvalidArgument | Internal
  | Unimplemented | FailedPrecondition | PermissionDenied
  | ResourceExhausted | Canceled | DeadlineExceeded.

Definition String (c : ErrorCode) : string :=
  match c with
  | OK => "OK" | Unknown => "Unknown" | NotFound => "NotFound"
  | AlreadyExists => "AlreadyExists" | InvalidArgument => "InvalidArgument"
  | Internal => "Internal" | Unimplemented => "Unimplemented"
  | FailedPrecondition => "FailedPrecondition"
  | PermissionDenied => "PermissionDenied"
  | ResourceExhausted => "ResourceExhausted" | Canceled => "Canceled"
  | DeadlineExceeded => "DeadlineExceeded"
  end.
End gcerrors.

(** The values of Go's [error] that the driver meets: the two structured
    errors of the Azure SDK, which carry an error code and an HTTP status; an
    error made by [gcerr.New], which carries a portable code; an error that is
    only a text ([errors.New], [fmt.Errorf]); and an error that wraps a cause,
    through which [errors.As] looks. *)
Inductive error : Type :=
  | StorageError (ErrorCode : string) (StatusCode : Z) (text : string)
  | ResponseError (ErrorCode : string) (StatusCode : Z) (text : string)
  | GcerrError (Code : gcerrors.ErrorCode) (msg : string)
  | errorString (text : string)
  | wrapError (text : string) (cause : error).

(** Modelled from the spec: the text of a [gcerr] error, whose package is not
    among the sources: its message, followed by its code. *)
Definition gcerr_Error (c : gcerrors.ErrorCode) (msg : string) : string :=
  msg +:+ " (code=" +:+ gcerrors.String c +:+ ")".

(** [err.Error()]. *)
Definition Error (err : error) : string :=
  match err with
  | StorageError _ _ text | ResponseError _ _ text => text
  | GcerrError c msg => gcerr_Error c msg
  | errorString text => text
  | wrapError text _ => text
  end.

(** [errors.As(err, &sErr)] for [sErr *azblob.StorageError]: the code and the
    status of the first such error in the chain of [err]. *)
Fixpoint AsStorageError (err : error) : option (string * Z) :=
  match err with
  | StorageError c s _ => Some (c, s)
  | wrapError _ cause => AsStorageError cause
  | _ => None
  end.

(** [errors.As(err, &rErr)] for [rErr *azcore.ResponseError]. *)
Fixpoint AsResponseError (err : error) : option (string * Z) :=
  match err with
  | ResponseError c s _ => Some (c, s)
  | wrapError _ cause => AsResponseError cause
  | _ => None
  end.

(** [strings.Contains]. *)
Fixpoint Contains (s substr : string) : bool :=
  String.prefix substr s ||
  match s with
  | EmptyString => false
  | String _ s' => Contains s' substr
  end.

Definition StorageErrorCodeBlobNotFound : string := "BlobNotFound".
Definition StorageErrorCodeAuthenticationFailed : string := "AuthenticationFailed".

(** [bucket.ErrorCode]. *)
Definition ErrorCode (err : error) : gcerrors.ErrorCode :=
  let found :=
    match AsStorageError err with
    | Some (errorCode, statusCode) => inl (errorCode, statusCode)
    | None =>
        match AsResponseError err with
        | Some (errorCode, statusCode) => inl (errorCode, statusCode)
        | None =>
            if Contains (Error err) "no such host" then inr gcerrors.NotFound
            else inr gcerrors.Unknown
        end
    end in
  match found with
  | inr code => code
  | inl (errorCode, statusCode) =>
      if String.eqb errorCode StorageErrorCodeBlobNotFound || (statusCode =? 404)%Z
      then gcerrors.NotFound
      else if String.eqb errorCode StorageErrorCodeAuthenticationFailed
      then gcerrors.PermissionDenied
      else gcerrors.Unknown
  end.

(** [gcerr.New(c, nil, 1, msg)]. *)
Definition gcerr_New (c : gcerrors.ErrorCode) (msg : string) : error := GcerrError c msg.

(** What a call of the driver comes to: a value, an error handed back to the
    caller, or a run-time panic (a nil pointer dereferenced). *)
Inductive outcome (A : Type) : Type :=
  | Returns (a : A)
  | Fails (err : error)
  | Panics.
Arguments Returns {A} a.
Arguments Fails {A} err.
Arguments Panics {A}.

(** An error carries a structured code and status when the error at the end
    of its chain is one of the two structured errors of the SDK. *)
Inductive Carries : error → string → Z → Prop :=
  | Carries_storage c s text : Carries (StorageError c s text) c s
  | Carries_response c s text : Carries (ResponseError c s text) c s
  | Carries_wrap text cause c s : Carries cause c s → Carries (wrapError text cause) c s.

Definition Unstructured (err : error) : Prop := ∀ c s, ¬ Carries err c s.

(** What the two calls of [errors.As] in [ErrorCode] find: the first target,
    and the second when the first is not there. *)
Definition structured (err : error) : option (string * Z) :=
  match AsStorageError err with
  | Some x => Some x
  | None => AsResponseError err
  end.

(** ** The Azure SDK as the driver uses it

    A pointer of Go that may be nil is an [option]; a call of the SDK that
    gives a value and an [error] gives a pair whose second part is [None] for
    a nil error.  Instants and durations are integers. *)

Definition bytes := list Byte.byte.

Inductive CopyStatusType : Set :=
  | CopyStatusTypePending
  | CopyStatusTypeSuccess
  | CopyStatusTypeAborted
  | CopyStatusTypeFailed.

Definition CopyStatusType_String (s : CopyStatusType) : string :=
  match s with
  | CopyStatusTypePending => "pending"
  | CopyStatusTypeSuccess => "success"
  | CopyStatusTypeAborted => "aborted"
  | CopyStatusTypeFailed => "failed"
  end.

Global Instance CopyStatusType_eq_dec : EqDecision CopyStatusType.
Proof. solve_decision. Defined.

(** The fields of [azblob.BlobSASPermissions] that the driver sets. *)
Record BlobSASPermissions := {
  Read : bool;
  Create : bool;
  Write_ : bool;
  Delete : bool;
}.

Record BlobStartCopyOptions := {
  CopyMetadata : list (string * string);
  Tier : option string;
}.

Record BlobDownloadOptions := {
  Offset : option Z;
  Count : option Z;
}.

Record BlobDownloadResponse := {
  Download_ContentType : option string;
  Download_ContentLength : option Z;
  Download_ContentRange : option string;
  Download_LastModified : option Z;
  Download_Body : bytes;
}.

Record ContainerListBlobsHierarchyOptions := {
  MaxResults : option Z;
  ListPrefix : option gostring;
  Marker : option string;
}.

Record BlobPrefix := {
  BlobPrefix_Name : option gostring;
}.

Record BlobItemInternal := {
  BlobItem_Name : option gostring;
  LastModified : option Z;
  ContentLength : option Z;
  ContentMD5 : bytes;
}.

(** [resp.ListBlobsHierarchySegmentResponse], with its segment. *)
Record ListBlobsHierarchySegmentResponse := {
  BlobPrefixes : list BlobPrefix;
  BlobItems : list BlobItemInternal;
  NextMarker : option string;
}.

Record UploadStreamOptions := {
  Upload_BufferSize : Z;
  MaxBuffers : Z;
  Upload_Metadata : gmap gostring string;
  BlobCacheControl : string;
  BlobContentDisposition : string;
  BlobContentEncoding : string;
  BlobContentLanguage : string;
  BlobContentMD5 : bytes;
  BlobContentType : string;
}.

(** The body handed to [UploadStream]: [http.NoBody], or the read end of a
    pipe, given by all that is read from the pipe up to its end.
    [PipeReader_open read] is that read end while the pipe is not closed,
    with what has been read from it so far: on it [UploadStream] tells
    whether the upload gives up there. *)
Inductive body : Type :=
  | NoBody
  | PipeReader (content : bytes)
  | PipeReader_open (read : bytes).

(** [*azblob.BlobClient].  [GetProperties n] is the answer to the call number
    [n] on this client: the [CopyStatus] pointer of the response and the
    error.  [GetSASToken] gives the encoded query parameters. *)
Record BlobClient := {
  URL : string;
  StartCopyFromURL : string → BlobStartCopyOptions → option CopyStatusType * option error;
  GetProperties : nat → option CopyStatusType * option error;
  GetSASToken : BlobSASPermissions → Z → Z → string * option error;
  Download : BlobDownloadOptions → BlobDownloadResponse * option error;
}.

(** [*azblob.BlockBlobClient].  [UploadStream c body opts] is the error of
    the upload that has read [body] to its end, [None] for none.  While the
    pipe it reads is open, [UploadStream c (PipeReader_open read) opts] is
    [Some err] when the upload, having read [read], returns [err] without
    reading further, and [None] when it reads on. *)
Record BlockBlobClient := {
  UploadStream : body → UploadStreamOptions → option error;
}.

(** [*azblob.ContainerClient].  [ListBlobsHierarchy] stands for the pager's
    first page: its response and its [Err()]. *)
Record ContainerClient := {
  NewBlobClient : gostring → option BlobClient * option error;
  NewBlockBlobClient : gostring → option BlockBlobClient * option error;
  ListBlobsHierarchy :
    gostring → ContainerListBlobsHierarchyOptions →
    ListBlobsHierarchySegmentResponse * option error;
}.

Record bucket := {
  client : ContainerClient;
}.

(** The calls made on the SDK, in the order they are made. *)
Inductive call : Type :=
  | call_NewBlobClient (key : gostring)
  | call_NewBlockBlobClient (key : gostring)
  | call_StartCopyFromURL (src : string) (opts : BlobStartCopyOptions)
  | call_GetProperties
  | call_GetSASToken (perms : BlobSASPermissions) (start expiry : Z)
  | call_Download (opts : BlobDownloadOptions)
  | call_ListBlobsHierarchy (delimiter : gostring) (opts : ContainerListBlobsHierarchyOptions)
  | call_UploadStream (b : body) (opts : UploadStreamOptions).

(** A run of a driver function: the calls it made and what it came to. *)
Definition run (A : Type) : Type := list call * outcome A.

Definition done_ {A} (r : outcome A) : run A := ([], r).

(** [after c k]: the call [c] is made, then [k] runs. *)
Definition after {A} (c : call) (k : run A) : run A := (c :: k.1, k.2).

(** A [BeforeX] hook of the portable layer: absent, or a function that may
    change the request it is shown and may fail. *)
Definition hook (R : Type) : Type := option (R → R * option error).

Definition run_hook {R} (h : hook R) (r : R) : R * option error :=
  match h with
  | None => (r, None)
  | Some f => f r
  end.

Definition defaultMaxDownloadRetryRequests : Z := 3.
Definition defaultPageSize : Z := 1000.
Definition defaultUploadBuffers : Z := 5.
Definition defaultUploadBlockSize : Z := 8 * 1024 * 1024.

(** The page size of Azure itself, as the comment on [defaultPageSize] has
    it. *)
Definition azureDefaultPageSize : Z := 5000.

(** ** [Copy] *)

Record CopyOptions := {
  BeforeCopy : hook BlobStartCopyOptions;
}.

(** A context: [ctx n] is [ctx.Err()] at the time the answer to the call
    number [n] of [GetProperties] is looked at. *)
Definition context := nat → option error.

(** The polling loop of [Copy], entered with the number [n] of the next call
    of [GetProperties], the count [nErrors] and the status last seen.  Each
    turn of the loop takes one unit of [fuel]; [None] is a loop still turning
    when the fuel is spent. *)
Fixpoint poll (dstBlobClient : BlobClient) (ctx : context) (fuel n : nat)
    (nErrors : Z) (copyStatus : CopyStatusType) : option (run CopyStatusType) :=
  if decide (copyStatus = CopyStatusTypePending) then
    match fuel with
    | O => None
    | S fuel' =>
        let '(propertiesResp_CopyStatus, err) := GetProperties dstBlobClient n in
        after call_GetProperties <$>
        match err with
        | Some e =>
            let nErrors := (nErrors + 1)%Z in
            if bool_decide (is_Some (ctx n)) || (nErrors =? 3)%Z
            then Some (done_ (Fails e))
            else
              match propertiesResp_CopyStatus with
              | None => Some (done_ Panics)
              | Some s => poll dstBlobClient ctx fuel' (S n) nErrors s
              end
        | None =>
            match propertiesResp_CopyStatus with
            | None => Some (done_ Panics)
            | Some s => poll dstBlobClient ctx fuel' (S n) nErrors s
            end
        end
    end
  else Some (done_ (Returns copyStatus)).

(** [bucket.Copy]. *)
Definition Copy (b : bucket) (ctx : context) (fuel : nat)
    (dstKey srcKey : gostring) (opts : CopyOptions) : option (run ()) :=
  let dstKey := escapeKey dstKey false in
  after (call_NewBlobClient dstKey) <$>
  match NewBlobClient (client b) dstKey with
  | (_, Some err) => Some (done_ (Fails err))
  | (dstBlobClient, None) =>
      let srcKey := escapeKey srcKey false in
      after (call_NewBlobClient srcKey) <$>
      match NewBlobClient (client b) srcKey with
      | (_, Some err) => Some (done_ (Fails err))
      | (srcBlobClient, None) =>
          let copyOptions := {| CopyMetadata := []; Tier := None |} in
          match run_hook (BeforeCopy opts) copyOptions with
          | (_, Some err) => Some (done_ (Fails err))
          | (copyOptions, None) =>
              match srcBlobClient, dstBlobClient with
              | Some src, Some dst =>
                  after (call_StartCopyFromURL (URL src) copyOptions) <$>
                  match StartCopyFromURL dst (URL src) copyOptions with
                  | (_, Some err) => Some (done_ (Fails err))
                  | (None, None) => Some (done_ Panics)
                  | (Some copyStatus, None) =>
                      match poll dst ctx fuel 0 0 copyStatus with
                      | None => None
                      | Some (calls, Returns copyStatus) =>
                          if decide (copyStatus = CopyStatusTypeSuccess)
                          then Some (calls, Returns ())
                          else Some (calls, Fails (errorString
                                 ("Copy failed with status: "
                                    +:+ CopyStatusType_String copyStatus)))
                      | Some (calls, Fails err) => Some (calls, Fails err)
                      | Some (calls, Panics) => Some (calls, Panics)
                      end
                  end
              | _, _ => Some (done_ Panics)
              end
          end
      end
  end.

(** ** [ListPaged] *)

Record ListOptions := {
  Prefix : gostring;
  Delimiter : gostring;
  PageToken : string;
  PageSize : Z;
  BeforeList : hook ContainerListBlobsHierarchyOptions;
}.

(** [driver.ListObject]; [raw] is what [AsFunc] hands out. *)
Record ListObject := {
  Key : gostring;
  ModTime : Z;
  Size : Z;
  MD5 : bytes;
  IsDir : bool;
  raw : BlobPrefix + BlobItemInternal;
}.

Record ListPage := {
  Objects : list ListObject;
  NextPageToken : string;
}.

(** [to.String]: the string pointed to, or the empty string for nil. *)
Definition to_String {A} (p : option (list A)) : list A := default [] p.

(** The conversion [int32(x)] of an [int]. *)
Definition int32 (x : Z) : Z := ((x + 2 ^ 31) mod 2 ^ 32 - 2 ^ 31)%Z.

(** [a < b] on strings.  Go compares byte by byte, which on UTF-8 is the
    order of the code point sequences. *)
Fixpoint string_lt (a b : gostring) : bool :=
  match a, b with
  | _, [] => false
  | [], _ :: _ => true
  | x :: a', y :: b' => (x <? y) || ((x =? y) && string_lt a' b')
  end.

(** [sort.Slice(s, less)], by a merge sort: [x] may come before [y] when [y]
    is not less than [x].  Go promises nothing on the order of entries neither
    of which is less than the other, and nothing below relies on it. *)
Definition sort_Slice {A} (less : A → A → bool) (s : list A) : list A :=
  @merge_sort A (λ x y, less y x = false)
    (λ x y, decide (less y x = false)) s.

(** The options [ListPaged] builds for the SDK, before the hook sees them. *)
Definition listOptions (opts : ListOptions) : ContainerListBlobsHierarchyOptions :=
  let pageSize := PageSize opts in
  let pageSize := if (pageSize =? 0)%Z then defaultPageSize else pageSize in
  let marker :=
    if (0 <? String.length (PageToken opts))%nat then Some (PageToken opts) else None in
  let pageSize32 := int32 pageSize in
  let prefix := escapeKey (Prefix opts) true in
  {| MaxResults := Some pageSize32; ListPrefix := Some prefix; Marker := marker |}.

Definition prefixObject (blobPrefix : BlobPrefix) : ListObject :=
  {| Key := unescapeKey (to_String (BlobPrefix_Name blobPrefix));
     ModTime := 0; Size := 0; MD5 := []; IsDir := true;
     raw := inl blobPrefix |}.

(** The entry of a blob; its two pointers are dereferenced. *)
Definition itemObject (blobInfo : BlobItemInternal) : option ListObject :=
  match LastModified blobInfo, ContentLength blobInfo with
  | Some modTime, Some size =>
      Some {| Key := unescapeKey (to_String (BlobItem_Name blobInfo));
              ModTime := modTime; Size := size; MD5 := ContentMD5 blobInfo;
              IsDir := false; raw := inr blobInfo |}
  | _, _ => None
  end.

(** [bucket.ListPaged]. *)
Definition ListPaged (b : bucket) (opts : ListOptions) : run ListPage :=
  match run_hook (BeforeList opts) (listOptions opts) with
  | (_, Some err) => done_ (Fails err)
  | (azOpts, None) =>
      let delimiter := escapeKey (Delimiter opts) true in
      after (call_ListBlobsHierarchy delimiter azOpts)
      match ListBlobsHierarchy (client b) delimiter azOpts with
      | (_, Some err) => done_ (Fails err)
      | (segment, None) =>
          let objects := prefixObject <$> BlobPrefixes segment in
          match mapM itemObject (BlobItems segment) with
          | None => done_ Panics
          | Some items =>
              let objects := objects ++ items in
              let nextPageToken := default EmptyString (NextMarker segment) in
              let objects :=
                if (0 <? length (BlobPrefixes segment))%nat
                   && (0 <? length (BlobItems segment))%nat
                then sort_Slice (λ x y, string_lt (Key x) (Key y)) objects
                else objects in
              done_ (Returns {| Objects := objects; NextPageToken := nextPageToken |})
          end
      end
  end.

(** The order of the entries of a page: the key of [x] is not after that of
    [y]. *)
Definition key_le (x y : ListObject) : Prop := string_lt (Key y) (Key x) = false.

(** ** [SignedURL] *)

Record SignedURLOptions := {
  Expiry : Z;
  Method : string;
  ContentType : string;
  EnforceAbsentContentType : bool;
  BeforeSign : hook BlobSASPermissions;
}.

Definition noPermissions : BlobSASPermissions :=
  {| Read := false; Create := false; Write_ := false; Delete := false |}.

(** The [switch] on [opts.Method]; [None] is its [default] branch. *)
Definition methodPermissions (method : string) : option BlobSASPermissions :=
  if String.eqb method "GET" then
    Some {| Read := true; Create := false; Write_ := false; Delete := false |}
  else if String.eqb method "PUT" then
    Some {| Read := false; Create := true; Write_ := true; Delete := false |}
  else if String.eqb method "DELETE" then
    Some {| Read := false; Create := false; Write_ := false; Delete := true |}
  else None.

(** [bucket.SignedURL]; [now] is [time.Now().UTC()]. *)
Definition SignedURL (b : bucket) (now : Z) (key : gostring)
    (opts : SignedURLOptions) : run string :=
  if negb (String.eqb (ContentType opts) EmptyString) || EnforceAbsentContentType opts then
    done_ (Fails (gcerr_New gcerrors.Unimplemented
                    "azureblob: does not enforce Content-Type on PUT"))
  else
    let key := escapeKey key false in
    after (call_NewBlobClient key)
    match NewBlobClient (client b) key with
    | (_, Some err) => done_ (Fails err)
    | (blobClient, None) =>
        match methodPermissions (Method opts) with
        | None => done_ (Fails (errorString ("unsupported Method " +:+ Method opts)))
        | Some perms =>
            match run_hook (BeforeSign opts) perms with
            | (_, Some err) => done_ (Fails err)
            | (perms, None) =>
                let start := now in
                let expiry := (start + Expiry opts)%Z in
                match blobClient with
                | None => done_ Panics
                | Some blobClient =>
                    after (call_GetSASToken perms start expiry)
                    (let '(sasQueryParams, err) := GetSASToken blobClient perms start expiry in
                     let sasURL := URL blobClient +:+ "?" +:+ sasQueryParams in
                     done_ (Returns sasURL))
                end
            end
        end
    end.

(** ** [NewRangeReader] *)

Record ReaderOptions := {
  BeforeRead : hook BlobDownloadOptions;
}.

Record ReaderAttributes := {
  Reader_ContentType : string;
  Reader_ModTime : Z;
  Reader_Size : Z;
}.

Record reader := {
  reader_body : bytes;
  attrs : ReaderAttributes;
  reader_raw : BlobDownloadResponse;
}.

(** [strings.Split(s, "/")]. *)
Fixpoint Split_slash (s : string) : list string :=
  match s with
  | EmptyString => [EmptyString]
  | String c s' =>
      if Ascii.eqb c "/" then EmptyString :: Split_slash s'
      else match Split_slash s' with
           | part :: parts => String c part :: parts
           | [] => [String c EmptyString]
           end
  end.

Fixpoint decimal (acc : Z) (s : string) : option Z :=
  match s with
  | EmptyString => Some acc
  | String c s' =>
      let d := Z.of_N (N_of_ascii c) in
      if ((48 <=? d) && (d <=? 57))%Z then decimal (acc * 10 + (d - 48))%Z s' else None
  end.

(** [strconv.ParseInt(s, 10, 64)], with [None] for an error. *)
Definition ParseInt_10_64 (s : string) : option Z :=
  let digits (s : string) : option Z :=
    match s with EmptyString => None | _ => decimal 0 s end in
  let value :=
    match s with
    | String "+" s' => digits s'
    | String "-" s' => Z.opp <$> digits s'
    | _ => digits s
    end in
  match value with
  | Some i => if ((- 2 ^ 63 <=? i) && (i <? 2 ^ 63))%Z then Some i else None
  | None => None
  end.

(** [getSize]. *)
Definition getSize (contentLength : Z) (contentRange : string) : Z :=
  let size := contentLength in
  if negb (String.eqb contentRange EmptyString) then
    match Split_slash contentRange with
    | [_; total] =>
        match ParseInt_10_64 total with
        | Some i => i
        | None => size
        end
    | _ => size
    end
  else size.

(** [bucket.NewRangeReader]. *)
Definition NewRangeReader (b : bucket) (key : gostring) (offset length : Z)
    (opts : ReaderOptions) : run reader :=
  let key := escapeKey key false in
  after (call_NewBlobClient key)
  (let '(blobClient, err) := NewBlobClient (client b) key in
   let downloadOpts :=
     {| Offset := Some offset;
        Count := if (0 <=? length)%Z then Some length else None |} in
   match run_hook (BeforeRead opts) downloadOpts with
   | (_, Some err) => done_ (Fails err)
   | (downloadOpts, None) =>
       match blobClient with
       | None => done_ Panics
       | Some blobClient =>
           after (call_Download downloadOpts)
           match Download blobClient downloadOpts with
           | (_, Some err) => done_ (Fails err)
           | (blobDownloadResponse, None) =>
               match Download_ContentLength blobDownloadResponse,
                     Download_LastModified blobDownloadResponse with
               | Some contentLength, Some lastModified =>
                   let attrs :=
                     {| Reader_ContentType :=
                          default EmptyString (Download_ContentType blobDownloadResponse);
                        Reader_Size :=
                          getSize contentLength
                            (default EmptyString (Download_ContentRange blobDownloadResponse));
                        Reader_ModTime := lastModified |} in
                   let body :=
                     if (length =? 0)%Z then [] else Download_Body blobDownloadResponse in
                   done_ (Returns {| reader_body := body; attrs := attrs;
                                     reader_raw := blobDownloadResponse |})
               | _, _ => done_ Panics
               end
           end
       end
   end).

(** ** [NewTypedWriter] and the writer *)

Record WriterOptions := {
  BufferSize : Z;
  MaxConcurrency : Z;
  CacheControl : string;
  ContentDisposition : string;
  ContentEncoding : string;
  ContentLanguage : string;
  Writer_ContentMD5 : bytes;
  (** The entries of the map, in the order the [range] statement yields
      them; the keys of a map are distinct. *)
  Metadata : list (gostring * string);
  BeforeWrite : hook UploadStreamOptions;
}.

(** What [open] started the upload task with: [http.NoBody], or the read end
    of the pipe. *)
Inductive task : Set := task_NoBody | task_pipe.

(** The writer: [writer_w] is [w.w], nil or the write end of the pipe, given
    with the bytes that have gone through it so far; [writer_task] is the
    upload task, once [open] has started it. *)
Record writer := {
  writer_client : option BlockBlobClient;
  writer_uploadOpts : UploadStreamOptions;
  writer_w : option bytes;
  writer_task : option task;
}.

(** Modelled from the spec: [escape.IsASCIIAlphanumeric], whose package is not
    among the sources: an ASCII letter or digit. *)
Definition IsASCIIAlphanumeric (c : rune) : bool :=
  ((65 <=? c) && (c <=? 90)) || ((97 <=? c) && (c <=? 122))
  || ((48 <=? c) && (c <=? 57)).

(** The predicate [NewTypedWriter] hands to [HexEscape] for a metadata key. *)
Definition shouldEscapeMetadataKey (runes : list rune) (i : nat) : bool :=
  let c := at_ runes i in
  if (i =? 0)%nat && (48 <=? c) && (c <=? 57) then true
  else if IsASCIIAlphanumeric c then false
  else if c =? 95 then false
  else true.

Definition escapeMetadataKey (k : gostring) : gostring :=
  escape.HexEscape k shouldEscapeMetadataKey.

Section writer.
(** [escape.URLEscape], the percent-encoding of metadata values, and the
    verb [%q] of [fmt], neither of which the properties depend on. *)
Variable URLEscape : string → string.
Variable Quote : gostring → string.

(** The loop over [opts.Metadata], entered with the map [md] built so
    far. *)
Fixpoint escapeMetadata (entries : list (gostring * string))
    (md : gmap gostring string) : gmap gostring string + error :=
  match entries with
  | [] => inl md
  | (k, v) :: entries' =>
      let e := escapeMetadataKey k in
      match md !! e with
      | Some _ =>
          inr (errorString ("duplicate keys after escaping: " +:+ Quote k
                              +:+ " => " +:+ Quote e))
      | None => escapeMetadata entries' (<[e := URLEscape v]> md)
      end
  end.

(** [bucket.NewTypedWriter]. *)
Definition NewTypedWriter (b : bucket) (key : gostring) (contentType : string)
    (opts : WriterOptions) : run writer :=
  let key := escapeKey key false in
  after (call_NewBlockBlobClient key)
  match NewBlockBlobClient (client b) key with
  | (_, Some err) => done_ (Fails err)
  | (blobClient, None) =>
      let bufferSize :=
        if (BufferSize opts =? 0)%Z then defaultUploadBlockSize else BufferSize opts in
      let maxConcurrency :=
        if (MaxConcurrency opts =? 0)%Z then defaultUploadBuffers else MaxConcurrency opts in
      match escapeMetadata (Metadata opts) ∅ with
      | inr err => done_ (Fails err)
      | inl md =>
          let uploadOpts :=
            {| Upload_BufferSize := bufferSize;
               MaxBuffers := maxConcurrency;
               Upload_Metadata := md;
               BlobCacheControl := CacheControl opts;
               BlobContentDisposition := ContentDisposition opts;
               BlobContentEncoding := ContentEncoding opts;
               BlobContentLanguage := ContentLanguage opts;
               BlobContentMD5 := Writer_ContentMD5 opts;
               BlobContentType := contentType |} in
          match run_hook (BeforeWrite opts) uploadOpts with
          | (_, Some err) => done_ (Fails err)
          | (uploadOpts, None) =>
              done_ (Returns {| writer_client := blobClient;
                                writer_uploadOpts := uploadOpts;
                                writer_w := None;
                                writer_task := None |})
          end
      end
  end.

End writer.

(** [writer.open]: the upload task is started with its body; the answer is
    always nil. *)
Definition open (w : writer) (pr : option ()) : writer * option error :=
  let body := match pr with None => task_NoBody | Some _ => task_pipe end in
  ({| writer_client := writer_client w;
      writer_uploadOpts := writer_uploadOpts w;
      writer_w := writer_w w;
      writer_task := Some body |}, None).

(** What the upload task reads of the bytes [p] offered to it through the
    pipe, having read [buf], and the error the read end is closed with when
    the task ends before it has read them all.  [stops read] is the error
    [UploadStream] returns having read [read], if it returns there: the task
    then keeps it in [w.err] and closes the read end with it. *)
Fixpoint pipe_read (stops : bytes → option error) (buf p : bytes)
    : bytes * option error :=
  match p with
  | [] => ([], None)
  | b :: p' =>
      match stops buf with
      | Some err => ([], Some err)
      | None =>
          let '(read, err) := pipe_read stops (buf ++ [b]) p' in (b :: read, err)
      end
  end.

(** Whether the upload task, having read [read] from the pipe of [w], has
    ended with an error. *)
Definition upload_stops (w : writer) (read : bytes) : option error :=
  match writer_client w with
  | Some c => UploadStream c (PipeReader_open read) (writer_uploadOpts w)
  | None => None
  end.

(** [w.w.Write(p)] on the pipe, whose read end the upload task holds.  The
    write hands over its bytes as the task reads them and returns when all
    are read, or when the task has closed the read end, with the number of
    bytes read until then and the error the task closed it with; the bytes
    not read do not enter the pipe. *)
Definition pipe_Write (w : writer) (p : bytes) : writer * (Z * option error) :=
  let buf := default [] (writer_w w) in
  let '(read, err) :=
    match p with
    | [] => ([], upload_stops w buf)
    | _ => pipe_read (upload_stops w) buf p
    end in
  ({| writer_client := writer_client w;
      writer_uploadOpts := writer_uploadOpts w;
      writer_w := Some (buf ++ read);
      writer_task := writer_task w |}, (Z.of_nat (length read), err)).

(** [writer.Write]. *)
Definition Write (w : writer) (p : bytes) : writer * (Z * option error) :=
  if (length p =? 0)%nat then (w, (0%Z, None))
  else
    match writer_w w with
    | None =>
        let w := {| writer_client := writer_client w;
                    writer_uploadOpts := writer_uploadOpts w;
                    writer_w := Some [];
                    writer_task := writer_task w |} in
        match open w (Some ()) with
        | (w, Some err) => (w, (0%Z, Some err))
        | (w, None) => pipe_Write w p
        end
    | Some _ => pipe_Write w p
    end.

(** [<-w.donec] and [return w.err]: [Close] waits for the end of the upload
    task, in which [UploadStream] runs on the body the task was started with
    and leaves its error in [w.err]: the error it has given up with before
    the end of the pipe, or else its error at the end.  With no task started
    nothing ever closes [donec], and [None] stands for the wait that does not
    end. *)
Definition wait (w : writer) : option (run ()) :=
  match writer_task w with
  | None => None
  | Some t =>
      let body :=
        match t with
        | task_NoBody => NoBody
        | task_pipe => PipeReader (default [] (writer_w w))
        end in
      match writer_client w with
      | None => Some (done_ Panics)
      | Some c =>
          let stopped :=
            match t with
            | task_NoBody => None
            | task_pipe => upload_stops w (default [] (writer_w w))
            end in
          Some (after (call_UploadStream body (writer_uploadOpts w))
                  match stopped with
                  | Some err => done_ (Fails err)
                  | None =>
                      match UploadStream c body (writer_uploadOpts w) with
                      | Some err => done_ (Fails err)
                      | None => done_ (Returns ())
                      end
                  end)
      end
  end.

(** [writer.Close]; closing the write end of a pipe gives no error. *)
Definition Close (w : writer) : writer * option (run ()) :=
  let w :=
    match writer_w w with
    | None => (open w None).1
    | Some _ => w
    end in
  (w, wait w).

(** ** The code an error is reported under *)

(** Modelled from the spec: the portable layer, which is not among the
    sources, reports an error of the driver under the code the error carries
    when [gcerr] made it, and under the code [ErrorCode] gives it
    otherwise. *)
Definition reported_code (err : error) : gcerrors.ErrorCode :=
  match err with
  | GcerrError c _ => c
  | _ => ErrorCode err
  end.

(** ** Backends for the examples *)

Definition transient : error := errorString "connection reset by peer".

(** A blob whose copy is pending at first; [answers] are those of the
    successive calls of [GetProperties]. *)
Definition copying_blob (answers : nat → option CopyStatusType * option error) : BlobClient :=
  {| URL := "https://account.blob.core.windows.net/container/blob";
     StartCopyFromURL := λ _ _, (Some CopyStatusTypePending, None);
     GetProperties := answers;
     GetSASToken := λ _ _ _, ("sig=abc", None);
     Download := λ _,
       ({| Download_ContentType := None; Download_ContentLength := None;
           Download_ContentRange := None; Download_LastModified := None;
           Download_Body := [] |}, Some transient) |}.

Definition empty_segment : ListBlobsHierarchySegmentResponse :=
  {| BlobPrefixes := []; BlobItems := []; NextMarker := None |}.

(** A container all of whose blobs are [blob]. *)
Definition container_of (blob : BlobClient) : bucket :=
  {| client :=
       {| NewBlobClient := λ _, (Some blob, None);
          NewBlockBlobClient := λ _, (None, Some transient);
          ListBlobsHierarchy := λ _ _, (empty_segment, None) |} |}.

(** The first status check fails, with the zero response; the copy is then
    reported done. *)
Definition one_failed_check (n : nat) : option CopyStatusType * option error :=
  match n with
  | O => (None, Some transient)
  | S _ => (Some CopyStatusTypeSuccess, None)
  end.

(** Every other status check fails, with a response that still tells the
    status; the copy stays pending. *)
Definition alternating_checks (n : nat) : option CopyStatusType * option error :=
  if Nat.even n then (Some CopyStatusTypePending, Some transient)
  else (Some CopyStatusTypePending, None).

Definition live : context := λ _, None.

(** A container whose listing has one directory and two blobs, the directory
    between the blobs in key order. *)
Definition mixed_segment : ListBlobsHierarchySegmentResponse :=
  {| BlobPrefixes := [ {| BlobPrefix_Name := Some (str "b/") |} ];
     BlobItems :=
       [ {| BlobItem_Name := Some (str "c"); LastModified := Some 20%Z;
            ContentLength := Some 3%Z; ContentMD5 := [] |};
         {| BlobItem_Name := Some (str "a__0x5c__"); LastModified := Some 10%Z;
            ContentLength := Some 1%Z; ContentMD5 := [] |} ];
     NextMarker := Some "next" |}.

Definition mixed_container : bucket :=
  {| client :=
       {| NewBlobClient := λ _, (None, Some transient);
          NewBlockBlobClient := λ _, (None, Some transient);
          ListBlobsHierarchy := λ _ _, (mixed_segment, None) |} |}.

Definition list_all : ListOptions :=
  {| Prefix := []; Delimiter := str "/"; PageToken := EmptyString;
     PageSize := 0; BeforeList := None |}.

(** A blob of a container opened without a shared key: no SAS token can be
    signed for it. *)
Definition unsignable_blob : BlobClient :=
  {| URL := "https://account.blob.core.windows.net/container/blob";
     StartCopyFromURL := λ _ _, (None, Some transient);
     GetProperties := λ _, (None, Some transient);
     GetSASToken := λ _ _ _,
       (EmptyString, Some (errorString "credential is not a SharedKeyCredential"));
     Download := λ _,
       ({| Download_ContentType := None; Download_ContentLength := None;
           Download_ContentRange := None; Download_LastModified := None;
           Download_Body := [] |}, Some transient) |}.

Definition invalid_name : error := errorString "invalid blob name".

(** A container that makes no client. *)
Definition clientless_container : bucket :=
  {| client :=
       {| NewBlobClient := λ _, (None, Some invalid_name);
          NewBlockBlobClient := λ _, (None, Some invalid_name);
          ListBlobsHierarchy := λ _ _, (empty_segment, None) |} |}.

Definition sign (method : string) : SignedURLOptions :=
  {| Expiry := 3600; Method := method; ContentType := EmptyString;
     EnforceAbsentContentType := false; BeforeSign := None |}.

(** A container whose block blobs take any upload. *)
Definition writable_container : bucket :=
  {| client :=
       {| NewBlobClient := λ _, (None, Some transient);
          NewBlockBlobClient := λ _, (Some {| UploadStream := λ _ _, None |}, None);
          ListBlobsHierarchy := λ _ _, (empty_segment, None) |} |}.

Definition write_with (metadata : list (gostring * string)) : WriterOptions :=
  {| BufferSize := 0; MaxConcurrency := 0; CacheControl := EmptyString;
     ContentDisposition := EmptyString; ContentEncoding := EmptyString;
     ContentLanguage := EmptyString; Writer_ContentMD5 := [];
     Metadata := metadata; BeforeWrite := None |}.

(** [%q] on a string of printable ASCII without quotes or backslashes. *)
Definition quote_ascii (k : gostring) : string :=
  String "034" (string_of_list_ascii (map ascii_of_N k)) +:+ String "034" EmptyString.

(** ** Service URLs, credentials and opening a bucket *)

Record ServiceURLOptions := {
  AccountName : string;
  SASToken : string;
  StorageDomain : string;
  Protocol : string;
  IsCDN : bool;
  IsLocalEmulator : bool;
}.

(** [strconv.ParseBool], with [None] for an error. *)
Definition ParseBool (s : string) : option bool :=
  if bool_decide (s ∈ ["1"; "t"; "T"; "TRUE"; "true"; "True"]) then Some true
  else if bool_decide (s ∈ ["0"; "f"; "F"; "FALSE"; "false"; "False"]) then Some false
  else None.

(** The environment: [os.Getenv], which gives the empty string for a variable
    that is not set. *)
Definition environment := string → string.

(** [NewDefaultServiceURLOptions]; the errors of [ParseBool] are dropped and
    leave [false]. *)
Definition NewDefaultServiceURLOptions (Getenv : environment) : ServiceURLOptions :=
  let isCDN := default false (ParseBool (Getenv "AZURE_STORAGE_IS_CDN")) in
  let isLocalEmulator :=
    default false (ParseBool (Getenv "AZURE_STORAGE_IS_LOCAL_EMULATOR")) in
  {| AccountName := Getenv "AZURE_STORAGE_ACCOUNT";
     SASToken := Getenv "AZURE_STORAGE_SAS_TOKEN";
     StorageDomain := Getenv "AZURE_STORAGE_DOMAIN";
     Protocol := Getenv "AZURE_STORAGE_PROTOCOL";
     IsCDN := isCDN;
     IsLocalEmulator := isLocalEmulator |}.

Inductive credTypeEnumT : Set :=
  | credTypeSharedKey
  | credTypeSASViaNone
  | credTypeConnectionString
  | credTypeIdentityFromEnv.

Record credInfoT := {
  CredType : credTypeEnumT;
  cred_AccountName : string;
  AccountKey : string;
  ConnectionString : string;
}.

(** [newCredInfoFromEnv]. *)
Definition newCredInfoFromEnv (Getenv : environment) : credInfoT :=
  let accountName := Getenv "AZURE_STORAGE_ACCOUNT" in
  let accountKey := Getenv "AZURE_STORAGE_KEY" in
  let sasToken := Getenv "AZURE_STORAGE_SAS_TOKEN" in
  let connectionString := Getenv "AZURE_STORAGE_CONNECTION_STRING" in
  if negb (String.eqb accountName EmptyString) && negb (String.eqb accountKey EmptyString)
  then {| CredType := credTypeSharedKey; cred_AccountName := accountName;
          AccountKey := accountKey; ConnectionString := EmptyString |}
  else if negb (String.eqb sasToken EmptyString)
  then {| CredType := credTypeSASViaNone; cred_AccountName := accountName;
          AccountKey := EmptyString; ConnectionString := EmptyString |}
  else if negb (String.eqb connectionString EmptyString)
  then {| CredType := credTypeConnectionString; cred_AccountName := accountName;
          AccountKey := EmptyString; ConnectionString := connectionString |}
  else {| CredType := credTypeIdentityFromEnv; cred_AccountName := accountName;
          AccountKey := EmptyString; ConnectionString := EmptyString |}.

(** [*azblob.ServiceClient]; the container client of an answer without error
    is taken not to be nil. *)
Record ServiceClient := {
  NewContainerClient : string → ContainerClient * option error;
}.

(** [openBucket]. *)
Definition openBucket (svcClient : option ServiceClient) (containerName : string)
    : outcome bucket :=
  match svcClient with
  | None => Fails (errorString "azureblob.OpenBucket: client is required")
  | Some svcClient =>
      if String.eqb containerName EmptyString
      then Fails (errorString "azureblob.OpenBucket: containerName is required")
      else
        match NewContainerClient svcClient containerName with
        | (_, Some err) => Fails err
        | (containerClient, None) => Returns {| client := containerClient |}
        end
  end.

(** [OpenBucket], up to the wrapping of the driver's bucket by the portable
    layer. *)
Definition OpenBucket (svcClient : option ServiceClient) (containerName : string)
    : outcome bucket :=
  openBucket svcClient containerName.

Section service_url.
(** The verb [%q] of [fmt]. *)
Variable Quote : string → string.

(** One turn of the loop of [withOverrides], on the options built so far. *)
Definition override (retval : ServiceURLOptions) (param : string)
    (values : list string) : outcome ServiceURLOptions :=
  if (1 <? length values)%nat
  then Fails (errorString ("multiple values of " +:+ param +:+ " not allowed"))
  else
    match values with
    | [] => Panics
    | value :: _ =>
        let parse_error :=
          wrapError ("strconv.ParseBool: parsing " +:+ Quote value +:+ ": invalid syntax")
            (errorString "invalid syntax") in
        if String.eqb param "domain" then
          Returns {| AccountName := AccountName retval; SASToken := SASToken retval;
                     StorageDomain := value; Protocol := Protocol retval;
                     IsCDN := IsCDN retval; IsLocalEmulator := IsLocalEmulator retval |}
        else if String.eqb param "protocol" then
          Returns {| AccountName := AccountName retval; SASToken := SASToken retval;
                     StorageDomain := StorageDomain retval; Protocol := value;
                     IsCDN := IsCDN retval; IsLocalEmulator := IsLocalEmulator retval |}
        else if String.eqb param "cdn" then
          match ParseBool value with
          | None => Fails parse_error
          | Some isCDN =>
              Returns {| AccountName := AccountName retval; SASToken := SASToken retval;
                         StorageDomain := StorageDomain retval;
                         Protocol := Protocol retval;
                         IsCDN := isCDN; IsLocalEmulator := IsLocalEmulator retval |}
          end
        else if String.eqb param "localemu" then
          match ParseBool value with
          | None => Fails parse_error
          | Some isLocalEmulator =>
              Returns {| AccountName := AccountName retval; SASToken := SASToken retval;
                         StorageDomain := StorageDomain retval;
                         Protocol := Protocol retval;
                         IsCDN := IsCDN retval; IsLocalEmulator := isLocalEmulator |}
          end
        else if String.eqb param "storage_account" then
          Returns {| AccountName := value; SASToken := SASToken retval;
                     StorageDomain := StorageDomain retval; Protocol := Protocol retval;
                     IsCDN := IsCDN retval; IsLocalEmulator := IsLocalEmulator retval |}
        else Fails (errorString ("unknown query parameter " +:+ Quote param))
    end.

(** [ServiceURLOptions.withOverrides]; [urlValues] are the entries of the
    map in the order the [range] statement yields them. *)
Fixpoint withOverrides (o : ServiceURLOptions) (urlValues : list (string * list string))
    : outcome ServiceURLOptions :=
  match urlValues with
  | [] => Returns o
  | (param, values) :: urlValues' =>
      match override o param values with
      | Returns retval => withOverrides retval urlValues'
      | Fails err => Fails err
      | Panics => Panics
      end
  end.

(** [NewServiceURL]; the line it logs is left out. *)
Definition NewServiceURL (opts : option ServiceURLOptions) : outcome string :=
  let opts :=
    match opts with
    | Some opts => opts
    | None => {| AccountName := EmptyString; SASToken := EmptyString;
                 StorageDomain := EmptyString; Protocol := EmptyString;
                 IsCDN := false; IsLocalEmulator := false |}
    end in
  let accountName := AccountName opts in
  if String.eqb accountName EmptyString
  then Fails (errorString "azureblob: Options.AccountName is required")
  else
    let domain := StorageDomain opts in
    let domain := if String.eqb domain EmptyString then "blob.core.windows.net" else domain in
    let protocol := Protocol opts in
    if negb (String.eqb protocol EmptyString)
       && negb (String.eqb protocol "http") && negb (String.eqb protocol "https")
    then Fails (errorString ("invalid protocol " +:+ Quote protocol))
    else
      let protocol := if String.eqb protocol EmptyString then "https" else protocol in
      let svcURL :=
        if String.prefix "127.0.0.1" domain || String.prefix "localhost" domain
           || IsLocalEmulator opts
        then protocol +:+ "://" +:+ domain +:+ "/" +:+ accountName
        else if IsCDN opts
        then protocol +:+ "://" +:+ domain
        else protocol +:+ "://" +:+ accountName +:+ "." +:+ domain in
      let svcURL :=
        if negb (String.eqb (SASToken opts) EmptyString)
        then svcURL +:+ "?" +:+ SASToken opts
        else svcURL in
      Returns svcURL.

(** [URLOpener]. *)
Record URLOpener := {
  MakeClient : string → option ServiceClient * option error;
  Opener_ServiceURLOptions : ServiceURLOptions;
}.

(** [URLOpener.OpenBucketURL] on a URL with the query values [query] and the
    host [host]; the first part of the result lists the service URLs
    [MakeClient] was called with. *)
Definition OpenBucketURL (o : URLOpener) (query : list (string * list string))
    (host : string) : list string * outcome bucket :=
  match withOverrides (Opener_ServiceURLOptions o) query with
  | Fails err => ([], Fails err)
  | Panics => ([], Panics)
  | Returns opts =>
      match NewServiceURL (Some opts) with
      | Fails err => ([], Fails err)
      | Panics => ([], Panics)
      | Returns svcURL =>
          match MakeClient o svcURL with
          | (_, Some err) => ([svcURL], Fails err)
          | (svcClient, None) => ([svcURL], OpenBucket svcClient host)
          end
      end
  end.

End service_url.

(** ** [Attributes] *)

(** [azblob.BlobGetPropertiesResponse]; [Properties_Metadata] holds the
    entries of the metadata map in the order the [range] statement yields
    them. *)
Record BlobGetPropertiesResponse := {
  Properties_CacheControl : option string;
  Properties_ContentDisposition : option string;
  Properties_ContentEncoding : option string;
  Properties_ContentLanguage : option string;
  Properties_ContentType : option string;
  Properties_ContentLength : option Z;
  Properties_CreationTime : option Z;
  Properties_LastModified : option Z;
  Properties_ContentMD5 : bytes;
  Properties_ETag : option string;
  Properties_Metadata : list (gostring * string);
}.

(** [driver.Attributes]; [Attributes_raw] is what [AsFunc] hands out. *)
Record Attributes_ := {
  Attributes_CacheControl : string;
  Attributes_ContentDisposition : string;
  Attributes_ContentEncoding : string;
  Attributes_ContentLanguage : string;
  Attributes_ContentType : string;
  Attributes_Size : Z;
  Attributes_CreateTime : Z;
  Attributes_ModTime : Z;
  Attributes_MD5 : bytes;
  Attributes_ETag : string;
  Attributes_Metadata : gmap gostring string;
  Attributes_raw : BlobGetPropertiesResponse;
}.

Section attributes.
(** [escape.URLUnescape], which undoes the percent-encoding of a metadata
    value. *)
Variable URLUnescape : string → string.

(** The loop of [Attributes] over the metadata of the response, entered with
    the map [md] built so far. *)
Fixpoint unescapeMetadata (entries : list (gostring * string))
    (md : gmap gostring string) : gmap gostring string :=
  match entries with
  | [] => md
  | (k, v) :: entries' =>
      unescapeMetadata entries' (<[escape.HexUnescape k := URLUnescape v]> md)
  end.

(** [bucket.Attributes].  The record [BlobClient] keeps of the answers of
    [GetProperties] the copy status only; [properties] gives the whole
    response and the error of the call made here. *)
Definition Attributes (b : bucket)
    (properties : BlobClient → BlobGetPropertiesResponse * option error)
    (key : gostring) : run Attributes_ :=
  let key := escapeKey key false in
  after (call_NewBlobClient key)
  match NewBlobClient (client b) key with
  | (_, Some err) => done_ (Fails err)
  | (None, None) => done_ Panics
  | (Some blobClient, None) =>
      after call_GetProperties
      match properties blobClient with
      | (_, Some err) => done_ (Fails err)
      | (blobPropertiesResponse, None) =>
          let md := unescapeMetadata (Properties_Metadata blobPropertiesResponse) ∅ in
          match Properties_CreationTime blobPropertiesResponse,
                Properties_LastModified blobPropertiesResponse with
          | Some createTime, Some modTime =>
              done_ (Returns
                {| Attributes_CacheControl :=
                     default EmptyString (Properties_CacheControl blobPropertiesResponse);
                   Attributes_ContentDisposition :=
                     default EmptyString (Properties_ContentDisposition blobPropertiesResponse);
                   Attributes_ContentEncoding :=
                     default EmptyString (Properties_ContentEncoding blobPropertiesResponse);
                   Attributes_ContentLanguage :=
                     default EmptyString (Properties_ContentLanguage blobPropertiesResponse);
                   Attributes_ContentType :=
                     default EmptyString (Properties_ContentType blobPropertiesResponse);
                   Attributes_Size :=
                     default 0%Z (Properties_ContentLength blobPropertiesResponse);
                   Attributes_CreateTime := createTime;
                   Attributes_ModTime := modTime;
                   Attributes_MD5 := Properties_ContentMD5 blobPropertiesResponse;
                   Attributes_ETag :=
                     default EmptyString (Properties_ETag blobPropertiesResponse);
                   Attributes_Metadata := md;
                   Attributes_raw := blobPropertiesResponse |})
          | _, _ => done_ Panics
          end
      end
  end.

End attributes.

(** The decimal numeral of a natural number, as [strconv] and the headers of
    a response write it. *)
Definition decimal_string (n : N) : string :=
  DecimalString.NilEmpty.string_of_uint (N.to_uint n).

(** Example data: a response of [GetProperties] with the metadata
    [metadata]. *)
Definition properties_with (metadata : list (gostring * string)) : BlobGetPropertiesResponse :=
  {| Properties_CacheControl := None; Properties_ContentDisposition := None;
     Properties_ContentEncoding := None; Properties_ContentLanguage := None;
     Properties_ContentType := Some "text/plain"; Properties_ContentLength := Some 5%Z;
     Properties_CreationTime := Some 10%Z; Properties_LastModified := Some 20%Z;
     Properties_ContentMD5 := []; Properties_ETag := None;
     Properties_Metadata := metadata |}.

(** An opener whose client gives the container of [mixed_container]. *)
Definition simple_opener (options : ServiceURLOptions) : URLOpener :=
  {| MakeClient := λ _,
       (Some {| NewContainerClient := λ _, (client mixed_container, None) |}, None);
     Opener_ServiceURLOptions := options |}.

Definition account (name : string) : ServiceURLOptions :=
  {| AccountName := name; SASToken := EmptyString; StorageDomain := EmptyString;
     Protocol := EmptyString; IsCDN := false; IsLocalEmulator := false |}.

(** [n] status checks that find the copy pending, then one that finds the
    status [s]. *)
Definition pending_then (n : nat) (s : CopyStatusType) (i : nat)
    : option CopyStatusType * option error :=
  if (i <? n)%nat then (Some CopyStatusTypePending, None) else (Some s, None).

(** [occurs p l]: the runes [p] occur in [l], one after the other. *)
Fixpoint occurs (p l : gostring) : bool :=
  match l with
  | [] => bool_decide (p = [])
  | _ :: l' => bool_decide (is_Some (escape.strip p l)) || occurs p l'
  end.

(** The runes a marker is written with: the underscore, the letter x and the
    hexadecimal digits in lower case. *)
Definition marker_rune (c : rune) : Prop :=
  c = 95 ∨ c = 120 ∨ 48 ≤ c ≤ 57 ∨ 97 ≤ c ≤ 102.

(** The runes left of a metadata key: ASCII letters, digits and the
    underscore. *)
Definition identifier_rune (c : rune) : bool := IsASCIIAlphanumeric c || (c =? 95).

(** A string with a slash in it. *)
Fixpoint has_slash (s : string) : bool :=
  match s with
  | EmptyString => false
  | String c s' => Ascii.eqb c "/" || has_slash s'
  end.

(** An entry of the metadata as [NewTypedWriter] stores it, and a stored
    entry as [Attributes] reads it. *)
Definition escapedEntry (URLEscape : string → string) (kv : gostring * string)
    : gostring * string :=
  (escapeMetadataKey kv.1, URLEscape kv.2).

Definition unescapedEntry (URLUnescape : string → string) (kv : gostring * string)
    : gostring * string :=
  (escape.HexUnescape kv.1, URLUnescape kv.2).

(** A query parameter [withOverrides] takes: one of its five names, with
    one value, a boolean for [cdn] and [localemu]. *)
Definition valid_override (entry : string * list string) : bool :=
  match entry.2 with
  | [value] =>
      bool_decide (entry.1 ∈ ["domain"; "protocol"; "storage_account"])
      || (bool_decide (entry.1 ∈ ["cdn"; "localemu"])
          && bool_decide (is_Some (ParseBool value)))
  | _ => false
  end.

(** The options without their SAS token. *)
Definition without_SASToken (opts : ServiceURLOptions) : ServiceURLOptions :=
  {| AccountName := AccountName opts; SASToken := EmptyString;
     StorageDomain := StorageDomain opts; Protocol := Protocol opts;
     IsCDN := IsCDN opts; IsLocalEmulator := IsLocalEmulator opts |}.

(** A hook that fails with [err] and leaves the request as it is. *)
Definition failing_hook {R : Type} (err : error) : hook R := Some (λ r, (r, Some err)).

Definition hook_error : error := errorString "not this time".

(** The unescaped names of a segment, directories first. *)
Definition segment_keys (segment : ListBlobsHierarchySegmentResponse) : list gostring :=
  ((λ p, unescapeKey (to_String (BlobPrefix_Name p))) <$> BlobPrefixes segment)
  ++ ((λ i, unescapeKey (to_String (BlobItem_Name i))) <$> BlobItems segment).

(** A block blob client whose upload from a pipe gives up with [err] once it
    has read [n] bytes, and which answers no other error. *)
Definition giving_up_client (n : nat) (err : error) : BlockBlobClient :=
  {| UploadStream := λ b _,
       match b with
       | PipeReader_open read => if (n <=? length read)%nat then Some err else None
       | _ => None
       end |}.

(** A blob whose copy is over as soon as it is asked for. *)
Definition copied_blob (status : CopyStatusType) : BlobClient :=
  {| URL := "https://account.blob.core.windows.net/container/blob";
     StartCopyFromURL := λ _ _, (Some status, None);
     GetProperties := λ _, (None, Some transient);
     GetSASToken := λ _ _ _, ("sig=abc", None);
     Download := λ opts,
       ({| Download_ContentType := Some "text/plain";
           Download_ContentLength := Some 5%Z;
           Download_ContentRange := Some "bytes 10-14/27";
           Download_LastModified := Some 20%Z;
           Download_Body := [Byte.x68; Byte.x65; Byte.x6c; Byte.x6c; Byte.x6f] |},
        None) |}.

(** A container with two blobs and no directory. *)
Definition blobs_segment : ListBlobsHierarchySegmentResponse :=
  {| BlobPrefixes := [];
     BlobItems :=
       [ {| BlobItem_Name := Some (str "a/b"); LastModified := Some 1%Z;
            ContentLength := Some 1%Z; ContentMD5 := [] |};
         {| BlobItem_Name := Some (str "dir__0x2f__"); LastModified := Some 2%Z;
            ContentLength := Some 0%Z; ContentMD5 := [] |} ];
     NextMarker := None |}.

Definition blobs_container : bucket :=
  {| client :=
       {| NewBlobClient := λ _, (None, Some transient);
          NewBlockBlobClient := λ _, (None, Some transient);
          ListBlobsHierarchy := λ _ _, (blobs_segment, None) |} |}.

(** * Properties *)

(** ** The escaper on examples *)

Example escapeKey_backslash : escapeKey (str "a\b") false = str "a__0x5c__b".
Proof. reflexivity. Qed.
Example escapeKey_full_key_slash : escapeKey (str "dir/") false = str "dir__0x2f__".
Proof. reflexivity. Qed.
Example escapeKey_prefix_slash : escapeKey (str "dir/") true = str "dir/".
Proof. reflexivity. Qed.
Example escapeKey_dotdot : escapeKey (str "a/../b") false = str "a/..__0x2f__b".
Proof. reflexivity. Qed.
Example escapeKey_tab : escapeKey [9; 97] false = str "__0x9__a".
Proof. reflexivity. Qed.
Example unescapeKey_ex : unescapeKey (str "a/..__0x2f__b__0x5c__") = str "a/../b\".
Proof. reflexivity. Qed.

(** ** Properties of the escaper *)

Section escape_facts.
Import escape.

Lemma uint_of_digits_of_uint d : uint_of_digits (digits_of_uint d) = Some d.
Proof. induction d; simpl; rewrite ?IHd; reflexivity. Qed.

Lemma digits_of_uint_no_underscore d : Forall (λ c, c ≠ 95) (digits_of_uint d).
Proof. induction d; simpl; constructor; auto; discriminate. Qed.

Lemma parse_hex_hex c : parse_hex (hex c) = Some c.
Proof.
  unfold parse_hex, hex.
  pose proof (Unsigned.of_to c) as Hc.
  destruct (digits_of_uint (N.to_hex_uint c)) eqn:E.
  - destruct (N.to_hex_uint c) eqn:Eu; try discriminate E.
    simpl in Hc. subst c. discriminate Eu.
  - rewrite <- E, uint_of_digits_of_uint. simpl. by rewrite Hc.
Qed.

Lemma take_digits_app ds rest :
  Forall (λ c, c ≠ 95) ds →
  take_digits (ds ++ 95 :: rest) = (ds, 95 :: rest).
Proof.
  induction 1 as [|c ds Hc _ IH]; simpl; [done|].
  destruct (N.eqb_spec c 95) as [->|_]; [done|]. by rewrite IH.
Qed.

Lemma marker_unfold c : marker c = 95 :: 95 :: 48 :: 120 :: hex c ++ [95; 95].
Proof. reflexivity. Qed.

(** A marker written by [HexEscape] is recognised, whole, by [unescape]. *)
Lemma unescape_marker c rest : unescape (marker c ++ rest) = Some (c, rest).
Proof.
  rewrite marker_unfold. unfold unescape. simpl.
  rewrite <- app_assoc. simpl.
  rewrite take_digits_app by apply digits_of_uint_no_underscore.
  simpl. by rewrite parse_hex_hex.
Qed.

Lemma unescape_None r : opens_marker r = false → unescape r = None.
Proof.
  unfold opens_marker, unescape. by destruct (strip marker_open r).
Qed.

(** Where a kept rune of the output opens a marker, the key opens one at
    the same place: the four runes [__0x] cannot borrow from a marker that
    follows, since a marker starts with two underscores. *)
Lemma opens_marker_kept f runes i c rest :
  opens_marker (c :: escape_from f runes i rest) = true →
  opens_marker (c :: rest) = true.
Proof.
  unfold opens_marker.
  change marker_open with [95; 95; 48; 120].
  cbn [strip]. destruct (95 =? c); [|done].
  destruct rest as [|c2 r2]; [done|]. cbn [escape_from strip app].
  destruct (f runes i); [rewrite marker_unfold; done|]. cbn [strip app].
  destruct (95 =? c2); [|done].
  destruct r2 as [|c3 r3]; [done|]. cbn [escape_from strip app].
  destruct (f runes (S i)); [rewrite marker_unfold; done|]. cbn [strip app].
  destruct (48 =? c3); [|done].
  destruct r3 as [|c4 r4]; [done|]. cbn [escape_from strip app].
  destruct (f runes (S (S i))); [rewrite marker_unfold; done|]. cbn [strip app].
  by destruct (120 =? c4).
Qed.

Lemma unescape_all_marker fuel c rest :
  unescape_all (S fuel) (marker c ++ rest) = c :: unescape_all fuel rest.
Proof.
  pose proof (unescape_marker c rest) as H.
  destruct (marker c ++ rest) eqn:E.
  - rewrite marker_unfold in E. discriminate.
  - cbn [unescape_all]. by rewrite H.
Qed.

Lemma length_marker c : (1 ≤ length (marker c))%nat.
Proof. rewrite marker_unfold. simpl. lia. Qed.

Lemma unescape_all_escape_from f runes rest : ∀ i fuel,
  has_marker_open rest = false →
  (length (escape_from f runes i rest) ≤ fuel)%nat →
  unescape_all fuel (escape_from f runes i rest) = rest.
Proof.
  induction rest as [|c rest IH]; intros i fuel Hk Hfuel.
  - by destruct fuel.
  - cbn [has_marker_open] in Hk. apply orb_false_iff in Hk as [Hhere Hk].
    cbn [escape_from] in *. rewrite length_app in Hfuel.
    destruct (f runes i) eqn:Ef.
    + pose proof (length_marker c).
      destruct fuel as [|fuel]; [lia|].
      rewrite unescape_all_marker. f_equal. apply IH; [done|lia].
    + cbn [length app] in *. destruct fuel as [|fuel]; [lia|].
      cbn [unescape_all]. rewrite unescape_None.
      * f_equal. apply IH; [done|lia].
      * destruct (opens_marker (c :: escape_from f runes (S i) rest)) eqn:E; [|done].
        apply opens_marker_kept in E. congruence.
Qed.

Lemma strip_length p : ∀ l r,
  strip p l = Some r → length l = (length p + length r)%nat.
Proof.
  induction p as [|a p IH]; intros l r; cbn [strip].
  - by intros [= ->].
  - destruct l as [|b l]; [done|]. destruct (a =? b); [|done].
    intros H%IH. cbn [length]. lia.
Qed.

Lemma take_digits_length l : ∀ d r,
  take_digits l = (d, r) → (length r ≤ length l)%nat.
Proof.
  induction l as [|c l IH]; intros d r; cbn [take_digits].
  - by intros [= <- <-].
  - destruct (c =? 95); [by intros [= <- <-]|].
    destruct (take_digits l) as [d' r'] eqn:E. intros [= <- <-].
    specialize (IH _ _ eq_refl). cbn [length]. lia.
Qed.

(** A marker that is recognised takes at least one rune. *)
Lemma unescape_shorter r c rest :
  unescape r = Some (c, rest) → (length rest < length r)%nat.
Proof.
  unfold unescape.
  destruct (strip marker_open r) as [body|] eqn:Hopen; [|done].
  destruct (take_digits body) as [digits rest'] eqn:Hdigits.
  destruct (strip marker_close rest') as [rest''|] eqn:Hclose; [|done].
  destruct (parse_hex digits); [|done]. intros [= _ <-].
  apply strip_length in Hopen, Hclose. apply take_digits_length in Hdigits.
  change (length marker_open) with 4%nat in Hopen. lia.
Qed.

(** The unescaped string is the same for every fuel that is at least the
    length: [HexUnescape] never runs out. *)
Lemma unescape_all_fuel n : ∀ r fuel,
  (length r ≤ n)%nat → (n ≤ fuel)%nat →
  unescape_all fuel r = unescape_all n r.
Proof.
  induction n as [|n IH]; intros r fuel Hr Hfuel.
  - destruct r; [|cbn in Hr; lia]. by destruct fuel.
  - destruct r as [|c r]; [by destruct fuel|].
    destruct fuel as [|fuel]; [lia|]. cbn [unescape_all].
    destruct (unescape (c :: r)) as [[c' rest]|] eqn:E.
    + apply unescape_shorter in E. cbn [length] in *.
      f_equal. apply IH; lia.
    + cbn [length] in *. f_equal. apply IH; lia.
Qed.

Lemma HexUnescape_fuel s fuel :
  (length s ≤ fuel)%nat → unescape_all fuel s = HexUnescape s.
Proof. intros. by apply unescape_all_fuel. Qed.

(** [HexUnescape] undoes [HexEscape], whatever is escaped, on a string in
    which no marker opens. *)
Lemma HexUnescape_HexEscape f s :
  has_marker_open s = false → HexUnescape (HexEscape s f) = s.
Proof.
  intros Hs. unfold HexUnescape, HexEscape.
  by apply unescape_all_escape_from.
Qed.

End escape_facts.

(** ** Properties of [escapeKey] *)

Section escapeKey_facts.
Import escape.

Lemma RuneLen_pos c : (1 ≤ RuneLen c)%Z.
Proof. unfold RuneLen. repeat case_match; lia. Qed.

Lemma len_app a b : len (a ++ b) = (len a + len b)%Z.
Proof. induction a as [|c a IH]; simpl; lia. Qed.

Lemma len_ge_length s : (Z.of_nat (length s) ≤ len s)%Z.
Proof.
  induction s as [|c s IH]; [done|].
  pose proof (RuneLen_pos c). cbn [len length]. lia.
Qed.

Lemma len_single_byte s : single_byte s = true → len s = Z.of_nat (length s).
Proof.
  induction s as [|c s IH]; [done|]. cbn [single_byte forallb len length].
  intros [Hc Hs]%andb_true_iff. unfold RuneLen. rewrite Hc.
  rewrite IH by exact Hs. lia.
Qed.

Lemma len_multi_byte s : single_byte s = false → (Z.of_nat (length s) < len s)%Z.
Proof.
  induction s as [|c s IH]; [done|]. cbn [single_byte forallb len length].
  intros [Hc|Hs]%andb_false_iff.
  - pose proof (len_ge_length s). unfold RuneLen. rewrite Hc.
    repeat case_match; lia.
  - pose proof (RuneLen_pos c). specialize (IH Hs). lia.
Qed.

Lemma at_app_l p q j : (j < length p)%nat → at_ (p ++ q) j = at_ p j.
Proof. intros. unfold at_. by apply app_nth1. Qed.

Lemma at_app_end p c : at_ (p ++ [c]) (length p) = c.
Proof. unfold at_. rewrite app_nth2 by lia. by rewrite Nat.sub_diag. Qed.

Lemma escape_from_app f runes a b : ∀ i,
  escape_from f runes i (a ++ b) =
  escape_from f runes i a ++ escape_from f runes (i + length a) b.
Proof.
  induction a as [|c a IH]; intros i; cbn [app escape_from length].
  - by rewrite Nat.add_0_r.
  - rewrite IH, <- app_assoc. do 3 f_equal. lia.
Qed.

Lemma escape_from_ext f g runes runes' rest : ∀ i,
  (∀ j, (i ≤ j < i + length rest)%nat → f runes j = g runes' j) →
  escape_from f runes i rest = escape_from g runes' i rest.
Proof.
  induction rest as [|c rest IH]; intros i Hfg; [done|].
  cbn [escape_from length] in *. rewrite Hfg by lia.
  f_equal. apply IH. intros j Hj. apply Hfg. lia.
Qed.

(** Away from the index [len(key)-1] the answer of the predicate depends on
    the three runes it reads only, and is the one given for a prefix. *)
Lemma shouldEscapeKey_inner key key' isPrefix r r' j :
  (Z.of_nat j ≠ len key - 1)%Z →
  at_ r j = at_ r' j →
  at_ r (j - 1) = at_ r' (j - 1) →
  at_ r (j - 2) = at_ r' (j - 2) →
  shouldEscapeKey key isPrefix r j = shouldEscapeKey key' true r' j.
Proof.
  intros Hj H0 H1 H2. unfold shouldEscapeKey.
  rewrite H0, H1, H2.
  apply Z.eqb_neq in Hj. rewrite Hj, andb_false_r. reflexivity.
Qed.

(** The runes before the last one are escaped as in a prefix. *)
Lemma escape_from_init p c isPrefix :
  escape_from (shouldEscapeKey (p ++ [c]) isPrefix) (p ++ [c]) 0 p =
  escapeKey p true.
Proof.
  apply escape_from_ext. intros j Hj. cbn in Hj.
  apply shouldEscapeKey_inner; rewrite ?at_app_l by lia; try done.
  pose proof (len_ge_length p). pose proof (RuneLen_pos c).
  rewrite len_app. cbn [len]. lia.
Qed.

Lemma escapeKey_snoc p c isPrefix :
  escapeKey (p ++ [c]) isPrefix =
  escapeKey p true ++
    (if shouldEscapeKey (p ++ [c]) isPrefix (p ++ [c]) (length p)
     then marker c else [c]).
Proof.
  unfold escapeKey at 1, HexEscape.
  rewrite escape_from_app, escape_from_init. cbn [escape_from Nat.add].
  by rewrite app_nil_r.
Qed.

Lemma shouldEscapeKey_slash_at_end key r i :
  at_ r i = 47 → Z.of_nat i = (len key - 1)%Z →
  shouldEscapeKey key false r i = true.
Proof.
  intros Hc Hi%Z.eqb_eq. unfold shouldEscapeKey. rewrite Hc, Hi. reflexivity.
Qed.

(** A trailing slash of a full key made of single-byte code points is
    escaped. *)
Lemma escapeKey_trailing_slash_single_byte p :
  single_byte p = true →
  escapeKey (p ++ [47]) false = escapeKey p true ++ marker 47.
Proof.
  intros Hp. rewrite escapeKey_snoc.
  rewrite shouldEscapeKey_slash_at_end; [done|apply at_app_end|].
  rewrite len_app, (len_single_byte p Hp). cbn [len RuneLen]. 
  change (RuneLen 47) with 1%Z. lia.
Qed.

(** When some code point takes more than one byte, no rune index reaches
    [len(key)-1], and the key is escaped as a prefix is. *)
Lemma escapeKey_multi_byte k isPrefix :
  single_byte k = false → escapeKey k isPrefix = escapeKey k true.
Proof.
  intros Hk. apply escape_from_ext. intros j Hj. cbn in Hj.
  apply shouldEscapeKey_inner; try done.
  pose proof (len_multi_byte k Hk). lia.
Qed.

Lemma length_escapeKey_le k :
  (length (escapeKey k false) ≤ length (escapeKey k true) + 7)%nat.
Proof.
  destruct (decide (k = [])) as [->|Hne]; [cbn; lia|].
  destruct (exists_last Hne) as (p & c & ->).
  rewrite !escapeKey_snoc, !length_app.
  apply Nat.add_le_mono_l with (p := length (escapeKey p true)).
  rewrite <- Nat.add_assoc. apply Nat.add_le_mono_l.
  unfold shouldEscapeKey. rewrite at_app_end.
  destruct (c =? 92); [lia|].
  destruct ((c <? 32) || (c =? 127)); [lia|].
  cbn [negb andb].
  destruct ((Z.of_nat (length p) =? len (p ++ [c]) - 1)%Z); cbn [andb].
  - destruct (N.eqb_spec c 47) as [->|_]; [|lia].
    rewrite marker_unfold. repeat case_match; cbn; lia.
  - lia.
Qed.

Lemma opens_marker_app a b : opens_marker a = true → opens_marker (a ++ b) = true.
Proof.
  unfold opens_marker. generalize marker_open as m.
  intros m. revert a. induction m as [|x m IH]; intros a; [done|].
  destruct a as [|y a]; [done|]. cbn [strip app].
  destruct (x =? y); [apply IH|done].
Qed.

Lemma has_marker_open_app a b :
  has_marker_open (a ++ b) = false → has_marker_open a = false.
Proof.
  induction a as [|c a IH]; [done|]. cbn [app has_marker_open].
  intros [H1 H2]%orb_false_iff. rewrite (IH H2), orb_false_r.
  destruct (opens_marker (c :: a)) eqn:E; [|done].
  apply (opens_marker_app _ b) in E. cbn [app] in E. congruence.
Qed.

End escapeKey_facts.

(** ** Round trip, injectivity and the trailing slash *)

(** A key that reads as a marker is left alone by [escapeKey], and then
    taken for a marker by [unescapeKey]. *)
Example escapeKey_marker_lookalike :
  escapeKey (str "__0x41__") false = str "__0x41__" ∧
  unescapeKey (str "__0x41__") = str "A".
Proof. split; reflexivity. Qed.

(** C1, as stated, fails: the key [__0x41__] comes back as [A]. *)
Lemma unescapeKey_escapeKey_lookalike :
  unescapeKey (escapeKey (str "__0x41__") false) ≠ str "__0x41__".
Proof. vm_compute. discriminate. Qed.

(** C1 (amended): for every key in which the marker opening [__0x] does not
    occur, unescaping the escaped form of the key gives the key back. *)
Theorem unescapeKey_escapeKey (k : gostring) :
  has_marker_open k = false → unescapeKey (escapeKey k false) = k.
Proof. apply HexUnescape_HexEscape. Qed.

Lemma unescapeKey_escapeKey_witness :
  has_marker_open (str "a\b/../c_0x/") = false ∧
  unescapeKey (escapeKey (str "a\b/../c_0x/") false) = str "a\b/../c_0x/".
Proof.
  split; [reflexivity|]. apply (unescapeKey_escapeKey (str "a\b/../c_0x/")).
  reflexivity.
Defined.

(** C2, as stated, fails: a backslash and the text of its own marker are two
    keys with one escaped form, as a full key and as a prefix. *)
Lemma escapeKey_collision :
  str "\" ≠ str "__0x5c__" ∧
  escapeKey (str "\") false = escapeKey (str "__0x5c__") false ∧
  escapeKey (str "\") true = escapeKey (str "__0x5c__") true.
Proof. split; [discriminate|]. split; reflexivity. Qed.

(** C2 (amended): two distinct keys in neither of which [__0x] occurs have
    distinct escaped forms, whatever [isPrefix] is. *)
Theorem escapeKey_injective (k1 k2 : gostring) (isPrefix : bool) :
  has_marker_open k1 = false → has_marker_open k2 = false →
  k1 ≠ k2 → escapeKey k1 isPrefix ≠ escapeKey k2 isPrefix.
Proof.
  intros H1 H2 Hne Heq. apply Hne.
  rewrite <- (HexUnescape_HexEscape (shouldEscapeKey k1 isPrefix) k1 H1).
  rewrite <- (HexUnescape_HexEscape (shouldEscapeKey k2 isPrefix) k2 H2).
  unfold escapeKey in Heq. by rewrite Heq.
Qed.

Lemma escapeKey_injective_witness :
  escapeKey (str "dir/") false ≠ escapeKey (str "dir\") false.
Proof.
  apply (escapeKey_injective (str "dir/") (str "dir\") false);
    [reflexivity | reflexivity | discriminate].
Defined.

(** Apart from the guard for the trailing slash, a key that ends in a slash
    is as every other key: [__0x41__/] ends in a slash, which is escaped,
    and the escaped form comes back as [A/]. *)
Example trailing_slash_lookalike :
  escapeKey (str "__0x41__/") false = str "__0x41____0x2f__" ∧
  unescapeKey (escapeKey (str "__0x41__/") false) ≠ str "__0x41__/".
Proof. split; [reflexivity|]. vm_compute. discriminate. Qed.

(** A key with a code point of more than one byte in it keeps one when a
    rune is added. *)
Lemma single_byte_snoc (p : gostring) (c : rune) :
  single_byte p = false → single_byte (p ++ [c]) = false.
Proof.
  unfold single_byte. rewrite forallb_app. intros Hp.
  apply andb_false_iff. by left.
Qed.

(** C3: the code does not escape the trailing slash of every full key.  The
    guard of [escapeKey] compares [i], the index of the rune, with
    [len(key)-1], a count of bytes.  The key [é/] has two runes and three
    bytes: at its slash [i] is 1 and [len(key)-1] is 2, and the key is
    escaped to itself, slash and all.  So it is for every key with a code
    point of more than one byte: no index reaches the count, and the full
    key is escaped as a prefix is, its trailing slash kept unless it follows
    two dots.  Where every code point takes one byte the trailing slash is
    replaced by the marker [__0x2f__], as the comment of the guard and the
    documentation of the package say of every key. *)
Theorem escapeKey_trailing_slash_kept :
  len [233; 47] = 3%Z ∧
  escapeKey [233; 47] false = [233; 47] ∧
  (∀ p : gostring, single_byte p = false →
     escapeKey (p ++ [47]) false = escapeKey (p ++ [47]) true ∧
     (shouldEscapeKey (p ++ [47]) true (p ++ [47]) (length p) = false →
        escapeKey (p ++ [47]) false = escapeKey p true ++ [47])) ∧
  (∀ p : gostring, single_byte p = true →
     escapeKey (p ++ [47]) false = escapeKey p true ++ escape.marker 47).
Proof.
  split; [reflexivity|]. split; [reflexivity|]. split.
  - intros p Hp.
    assert (escapeKey (p ++ [47]) false = escapeKey (p ++ [47]) true) as Heq
      by apply escapeKey_multi_byte, single_byte_snoc, Hp.
    split; [exact Heq|]. intros Hdots. rewrite Heq, escapeKey_snoc.
    match goal with
    | |- context [if ?b then _ else _] =>
        replace b with false by (symmetry; exact Hdots)
    end.
    done.
  - apply escapeKey_trailing_slash_single_byte.
Qed.

(** ** Error classification *)

Example ErrorCode_404 :
  ErrorCode (ResponseError "ContainerNotFound" 404 "404 Not Found") = gcerrors.NotFound.
Proof. reflexivity. Qed.
Example ErrorCode_auth :
  ErrorCode (StorageError "AuthenticationFailed" 403 "forbidden") = gcerrors.PermissionDenied.
Proof. reflexivity. Qed.
Example ErrorCode_dns :
  ErrorCode (errorString "dial tcp: lookup x.blob.core.windows.net: no such host")
  = gcerrors.NotFound.
Proof. reflexivity. Qed.
Example ErrorCode_structured_first :
  ErrorCode (wrapError "no such host" (StorageError "AuthenticationFailed" 403 "forbidden"))
  = gcerrors.PermissionDenied.
Proof. reflexivity. Qed.
Example ErrorCode_other : ErrorCode (errorString "boom") = gcerrors.Unknown.
Proof. reflexivity. Qed.

Section ErrorCode_facts.

Lemma Carries_found err c s : Carries err c s ↔ structured err = Some (c, s).
Proof.
  unfold structured. split.
  - induction 1 as [| |text cause c s _ IH]; [done..|]. exact IH.
  - induction err as [c' s' t|c' s' t|code msg|t|t cause IH]; cbn.
    + intros [= -> ->]. constructor.
    + intros [= -> ->]. constructor.
    + done.
    + done.
    + intros H. constructor. by apply IH.
Qed.

Lemma Unstructured_found err : Unstructured err ↔ structured err = None.
Proof.
  split.
  - intros H. destruct (structured err) as [[c s]|] eqn:E; [|done].
    apply Carries_found in E. by apply H in E.
  - intros H c s Hc%Carries_found. congruence.
Qed.

Lemma ErrorCode_found err c s :
  structured err = Some (c, s) →
  ErrorCode err =
    if String.eqb c StorageErrorCodeBlobNotFound || (s =? 404)%Z
    then gcerrors.NotFound
    else if String.eqb c StorageErrorCodeAuthenticationFailed
    then gcerrors.PermissionDenied
    else gcerrors.Unknown.
Proof.
  unfold structured, ErrorCode. intros H.
  destruct (AsStorageError err) as [[c' s']|].
  - by injection H as -> ->.
  - by rewrite H.
Qed.

Lemma ErrorCode_not_found err :
  structured err = None →
  ErrorCode err =
    if Contains (Error err) "no such host" then gcerrors.NotFound
    else gcerrors.Unknown.
Proof.
  unfold structured, ErrorCode. intros H.
  destruct (AsStorageError err) as [[c' s']|]; [done|]. rewrite H.
  by destruct (Contains _ _).
Qed.

End ErrorCode_facts.

(** C4: [ErrorCode] classifies every error by the first of these that
    applies: a carried code [BlobNotFound] or a carried status 404 gives
    [NotFound]; a carried code [AuthenticationFailed] gives
    [PermissionDenied]; with no code or status carried, a text that contains
    [no such host] gives [NotFound]; every other error gives [Unknown].  What
    is carried decides before the text is looked at. *)
Theorem ErrorCode_classifies (err : error) :
  (∀ c s, Carries err c s →
     (c = "BlobNotFound" ∨ s = 404%Z → ErrorCode err = gcerrors.NotFound) ∧
     (¬ (c = "BlobNotFound" ∨ s = 404%Z) → c = "AuthenticationFailed" →
        ErrorCode err = gcerrors.PermissionDenied) ∧
     (¬ (c = "BlobNotFound" ∨ s = 404%Z) → c ≠ "AuthenticationFailed" →
        ErrorCode err = gcerrors.Unknown)) ∧
  (Unstructured err →
     (Contains (Error err) "no such host" = true → ErrorCode err = gcerrors.NotFound) ∧
     (Contains (Error err) "no such host" = false → ErrorCode err = gcerrors.Unknown)).
Proof.
  split.
  - intros c s Hc%Carries_found. rewrite (ErrorCode_found _ _ _ Hc).
    unfold StorageErrorCodeBlobNotFound, StorageErrorCodeAuthenticationFailed.
    destruct (String.eqb_spec c "BlobNotFound"), (Z.eqb_spec s 404),
      (String.eqb_spec c "AuthenticationFailed"); cbn [orb];
      repeat split; intros; subst; tauto || congruence.
  - intros Hu%Unstructured_found. rewrite (ErrorCode_not_found _ Hu).
    split; by intros ->.
Qed.

Lemma ErrorCode_classifies_witness :
  ErrorCode (wrapError "Get: no such host" (StorageError "AuthenticationFailed" 403 "forbidden"))
    = gcerrors.PermissionDenied ∧
  ErrorCode (wrapError "lookup: no such host" (errorString "no such host"))
    = gcerrors.NotFound.
Proof.
  split.
  - destruct (ErrorCode_classifies
      (wrapError "Get: no such host" (StorageError "AuthenticationFailed" 403 "forbidden")))
      as [H _].
    destruct (H "AuthenticationFailed" 403%Z) as (_ & H2 & _).
    + do 2 constructor.
    + apply H2; [intros [|]; discriminate | reflexivity].
  - destruct (ErrorCode_classifies
      (wrapError "lookup: no such host" (errorString "no such host"))) as [_ H].
    destruct H as [H1 _].
    + intros c s Hc. inversion Hc; subst.
      match goal with H : Carries (errorString _) _ _ |- _ => inversion H end.
    + apply H1. reflexivity.
Defined.

(** ** The polling loop of [Copy] *)

(** A failed status check that is tolerated is followed by the dereference
    of the [CopyStatus] of its response; with the zero response of a failed
    call the loop panics. *)
Lemma poll_tolerated_failure c ctx fuel n nErrors e :
  GetProperties c n = (None, Some e) →
  ctx n = None → (nErrors + 1)%Z ≠ 3%Z →
  poll c ctx (S fuel) n nErrors CopyStatusTypePending
  = Some ([call_GetProperties], Panics).
Proof.
  intros Hg Hctx Hn. cbn [poll].
  rewrite decide_True by done. rewrite Hg, Hctx.
  rewrite bool_decide_false by (by intros [? ?]).
  apply Z.eqb_neq in Hn. rewrite Hn. reflexivity.
Qed.

(** C5: a single failed status check followed by checks that succeed.  The
    context is live and the count of failures is one, so the failure is
    tolerated; the loop then panics on the nil [CopyStatus] of the failed
    response, and [Copy] gives neither success nor the error. *)
Theorem Copy_single_failed_check :
  Copy (container_of (copying_blob one_failed_check)) live 10
    (str "dst") (str "src") {| BeforeCopy := None |}
  = Some ([call_NewBlobClient (str "dst"); call_NewBlobClient (str "src");
           call_StartCopyFromURL
             "https://account.blob.core.windows.net/container/blob"
             {| CopyMetadata := []; Tier := None |};
           call_GetProperties],
          Panics).
Proof. reflexivity. Qed.

(** With failed responses that still tell the status, the failures are
    counted in total: the third one ends the loop although no two checks
    in a row have failed. *)
Example Copy_counts_failures_in_total :
  Copy (container_of (copying_blob alternating_checks)) live 10
    (str "dst") (str "src") {| BeforeCopy := None |}
  = Some ([call_NewBlobClient (str "dst"); call_NewBlobClient (str "src");
           call_StartCopyFromURL
             "https://account.blob.core.windows.net/container/blob"
             {| CopyMetadata := []; Tier := None |};
           call_GetProperties; call_GetProperties; call_GetProperties;
           call_GetProperties; call_GetProperties],
          Fails transient).
Proof. reflexivity. Qed.

(** ** [ListPaged]: page size and order *)

Example ListPaged_mixed :
  Key <$> match (ListPaged mixed_container list_all).2 with
          | Returns page => Objects page
          | _ => []
          end
  = [str "a\"; str "b/"; str "c"].
Proof. reflexivity. Qed.

Section order.

Lemma string_lt_nil_r a : string_lt a [] = false.
Proof. by destruct a. Qed.

Lemma string_lt_cons x a y b :
  string_lt (x :: a) (y :: b) = (x <? y) || ((x =? y) && string_lt a b).
Proof. reflexivity. Qed.

Lemma string_lt_asym a : ∀ b, string_lt a b = true → string_lt b a = false.
Proof.
  induction a as [|x a IH]; intros [|y b]; try done.
  rewrite !string_lt_cons.
  destruct (N.ltb_spec x y), (N.ltb_spec y x), (N.eqb_spec x y), (N.eqb_spec y x);
    cbn [orb andb]; try done; try lia. apply IH.
Qed.

Lemma string_le_trans a : ∀ b c,
  string_lt b a = false → string_lt c b = false → string_lt c a = false.
Proof.
  induction a as [|x a IH]; intros b c; [intros; apply string_lt_nil_r|].
  destruct b as [|y b]; [done|]. destruct c as [|z c]; [done|].
  rewrite !string_lt_cons.
  destruct (N.ltb_spec y x), (N.ltb_spec z y), (N.ltb_spec z x),
    (N.eqb_spec y x), (N.eqb_spec z y), (N.eqb_spec z x);
    cbn [orb andb]; try done; try lia. apply IH.
Qed.

Global Instance key_le_total : Total key_le.
Proof.
  intros x y. unfold key_le.
  destruct (string_lt (Key y) (Key x)) eqn:E; [|by left].
  right. by apply string_lt_asym.
Qed.

Global Instance key_le_trans : Transitive key_le.
Proof. intros x y z. unfold key_le. apply string_le_trans. Qed.

Lemma sort_Slice_sorted (s : list ListObject) :
  StronglySorted key_le (sort_Slice (λ x y, string_lt (Key x) (Key y)) s).
Proof. unfold sort_Slice. apply (StronglySorted_merge_sort key_le). Qed.

Lemma sort_Slice_Permutation (s : list ListObject) :
  sort_Slice (λ x y, string_lt (Key x) (Key y)) s ≡ₚ s.
Proof. unfold sort_Slice. apply (merge_sort_Permutation key_le). Qed.

Lemma prefixObject_IsDir l : Forall (λ o, IsDir o = true) (prefixObject <$> l).
Proof. induction l; constructor; auto. Qed.

Lemma itemObject_IsDir l items :
  mapM itemObject l = Some items → Forall (λ o, IsDir o = false) items.
Proof.
  intros H%mapM_Some. induction H as [|x o l items Hx _ IH]; constructor; [|done].
  unfold itemObject in Hx. repeat case_match; try done. by injection Hx as <-.
Qed.

End order.

(** C6: the default page size is 1000, less than the 5000 of Azure; with
    [PageSize] 0 the options [ListPaged] builds ask for at most 1000 results,
    and with no [BeforeList] hook these are the options of its one call of the
    SDK; and a page returned with a directory entry and a blob entry in it has
    its entries in ascending order of their keys. *)
Theorem ListPaged_page_size_and_order (b : bucket) (opts : ListOptions) :
  (defaultPageSize = 1000 ∧ defaultPageSize < azureDefaultPageSize)%Z ∧
  (PageSize opts = 0%Z →
     MaxResults (listOptions opts) = Some 1000%Z ∧
     (BeforeList opts = None →
        (ListPaged b opts).1 =
          [call_ListBlobsHierarchy (escapeKey (Delimiter opts) true) (listOptions opts)])) ∧
  (∀ page, (ListPaged b opts).2 = Returns page →
     (∃ d, d ∈ Objects page ∧ IsDir d = true) →
     (∃ o, o ∈ Objects page ∧ IsDir o = false) →
     StronglySorted key_le (Objects page)).
Proof.
  split; [done|]. split.
  - intros Hsize. split.
    + unfold listOptions. rewrite Hsize. reflexivity.
    + intros Hhook. unfold ListPaged. rewrite Hhook. cbn [run_hook].
      unfold after. cbn [fst].
      destruct (ListBlobsHierarchy _ _ _) as [segment [err|]]; [done|].
      by destruct (mapM itemObject (BlobItems segment)).
  - intros page Hpage (d & Hd & Hdir) (o & Ho & Hblob). revert Hpage.
    unfold ListPaged.
    destruct (run_hook _ _) as [azOpts [err|]]; [done|].
    unfold after. cbn [snd].
    destruct (ListBlobsHierarchy _ _ _) as [segment [err|]]; [done|].
    destruct (mapM itemObject (BlobItems segment)) as [items|] eqn:Hitems; [|done].
    pose proof (prefixObject_IsDir (BlobPrefixes segment)) as Hdirs.
    pose proof (itemObject_IsDir _ _ Hitems) as Hblobs.
    apply length_mapM in Hitems.
    cbn [done_ snd]. intros [= <-]. cbn [Objects] in *.
    destruct (BlobPrefixes segment) as [|p ps] eqn:Hp.
    { cbn in Hd. rewrite Forall_forall in Hblobs. apply Hblobs in Hd. congruence. }
    destruct (BlobItems segment) as [|i is_] eqn:Hi.
    { destruct items; [|done]. cbn [length Nat.ltb Nat.leb andb] in Hd.
      rewrite app_nil_r in Ho. rewrite Forall_forall in Hdirs.
      apply Hdirs in Ho. congruence. }
    cbn [length Nat.ltb Nat.leb andb]. apply sort_Slice_sorted.
Qed.

Lemma ListPaged_page_size_and_order_witness :
  MaxResults (listOptions list_all) = Some 1000%Z ∧
  (ListPaged mixed_container list_all).1 =
    [call_ListBlobsHierarchy (str "/") (listOptions list_all)] ∧
  ∀ page, (ListPaged mixed_container list_all).2 = Returns page →
    StronglySorted key_le (Objects page).
Proof.
  destruct (ListPaged_page_size_and_order mixed_container list_all)
    as (_ & Hsize & Horder).
  destruct (Hsize eq_refl) as [Hmax Hcall].
  split; [exact Hmax|]. split; [exact (Hcall eq_refl)|].
  intros page Hpage. apply (Horder page Hpage).
  - injection Hpage as <-. eexists.
    split; [apply list_elem_of_lookup; exists 1%nat; reflexivity|reflexivity].
  - injection Hpage as <-. eexists.
    split; [apply list_elem_of_lookup; exists 0%nat; reflexivity|reflexivity].
Defined.

(** ** [SignedURL] and [NewRangeReader]: what is rejected, what is dropped *)

Example getSize_range : getSize 5 "bytes 10-14/27" = 27%Z.
Proof. reflexivity. Qed.
Example getSize_whole : getSize 27 EmptyString = 27%Z.
Proof. reflexivity. Qed.

Example SignedURL_GET :
  SignedURL (container_of (copying_blob one_failed_check)) 100 (str "a/b/") (sign "GET")
  = ([call_NewBlobClient (str "a/b__0x2f__");
      call_GetSASToken
        {| Read := true; Create := false; Write_ := false; Delete := false |} 100 3700],
     Returns "https://account.blob.core.windows.net/container/blob?sig=abc").
Proof. reflexivity. Qed.

Lemma methodPermissions_None m :
  m ≠ "GET" → m ≠ "PUT" → m ≠ "DELETE" → methodPermissions m = None.
Proof.
  intros H1 H2 H3. unfold methodPermissions.
  by destruct (String.eqb_spec m "GET"), (String.eqb_spec m "PUT"),
    (String.eqb_spec m "DELETE").
Qed.

(** C7, as stated, fails: for the method [PATCH] the blob client is made
    first, and the error that comes back is a plain text, reported as
    [Unknown]. *)
Lemma SignedURL_PATCH :
  SignedURL (container_of unsignable_blob) 100 (str "k") (sign "PATCH")
  = ([call_NewBlobClient (str "k")], Fails (errorString "unsupported Method PATCH")) ∧
  reported_code (errorString "unsupported Method PATCH") = gcerrors.Unknown.
Proof. split; reflexivity. Qed.

(** C7 (amended): with a content type given, or its absence to be enforced,
    [SignedURL] fails with an [Unimplemented] error before any call of the
    SDK.  Otherwise, with a method other than GET, PUT and DELETE, and the
    blob client made without an error, [SignedURL] fails with the plain error
    [unsupported Method <method>], which carries no code, after that one
    call and before any signing. *)
Theorem SignedURL_rejections (b : bucket) (now : Z) (key : gostring)
    (opts : SignedURLOptions) :
  (ContentType opts ≠ EmptyString ∨ EnforceAbsentContentType opts = true →
     SignedURL b now key opts =
       ([], Fails (GcerrError gcerrors.Unimplemented
                     "azureblob: does not enforce Content-Type on PUT"))) ∧
  (ContentType opts = EmptyString → EnforceAbsentContentType opts = false →
   Method opts ≠ "GET" → Method opts ≠ "PUT" → Method opts ≠ "DELETE" →
   (NewBlobClient (client b) (escapeKey key false)).2 = None →
     SignedURL b now key opts =
       ([call_NewBlobClient (escapeKey key false)],
        Fails (errorString ("unsupported Method " +:+ Method opts)))).
Proof.
  unfold SignedURL. split.
  - intros [Hct|Henf].
    + destruct (String.eqb_spec (ContentType opts) EmptyString); done.
    + rewrite Henf, orb_true_r. done.
  - intros Hct Henf H1 H2 H3 Hclient.
    rewrite Hct, Henf. cbn [String.eqb negb orb].
    destruct (NewBlobClient _ _) as [blobClient err]. cbn in Hclient. subst err.
    by rewrite methodPermissions_None.
Qed.

Lemma SignedURL_rejections_witness :
  SignedURL (container_of unsignable_blob) 100 (str "k")
    {| Expiry := 3600; Method := "PUT"; ContentType := "text/plain";
       EnforceAbsentContentType := false; BeforeSign := None |}
  = ([], Fails (GcerrError gcerrors.Unimplemented
                  "azureblob: does not enforce Content-Type on PUT")) ∧
  SignedURL (container_of unsignable_blob) 100 (str "k/") (sign "HEAD")
  = ([call_NewBlobClient (str "k__0x2f__")],
     Fails (errorString "unsupported Method HEAD")).
Proof.
  split.
  - apply (SignedURL_rejections (container_of unsignable_blob) 100 (str "k")).
    left. discriminate.
  - apply (SignedURL_rejections (container_of unsignable_blob) 100 (str "k/") (sign "HEAD"));
      try reflexivity; discriminate.
Defined.

(** Whatever [GetSASToken] answers, its error is not looked at. *)
Lemma SignedURL_drops_signing_error (b : bucket) now key opts blobClient perms q err :
  ContentType opts = EmptyString → EnforceAbsentContentType opts = false →
  NewBlobClient (client b) (escapeKey key false) = (Some blobClient, None) →
  methodPermissions (Method opts) = Some perms →
  BeforeSign opts = None →
  GetSASToken blobClient perms now (now + Expiry opts) = (q, err) →
  (SignedURL b now key opts).2 = Returns (URL blobClient +:+ "?" +:+ q).
Proof.
  intros Hct Henf Hclient Hperms Hhook Hsign. unfold SignedURL.
  rewrite Hct, Henf, Hclient, Hperms, Hhook. cbn. by rewrite Hsign.
Qed.

(** The error of [NewBlobClient] is not looked at either: with no hook in
    the way the nil client is used for the download. *)
Lemma NewRangeReader_nil_client (b : bucket) key offset length opts err :
  NewBlobClient (client b) (escapeKey key false) = (None, err) →
  BeforeRead opts = None →
  NewRangeReader b key offset length opts
  = ([call_NewBlobClient (escapeKey key false)], Panics).
Proof.
  intros Hclient Hhook. unfold NewRangeReader. by rewrite Hclient, Hhook.
Qed.

(** C8: the claim holds for neither operation.  When the SAS token cannot be
    signed, [SignedURL] returns a URL and no error; when the blob client
    cannot be made, [NewRangeReader] goes on with the nil client and panics
    at the download, and the error is never returned. *)
Theorem dropped_errors :
  SignedURL (container_of unsignable_blob) 100 (str "k") (sign "GET")
  = ([call_NewBlobClient (str "k");
      call_GetSASToken
        {| Read := true; Create := false; Write_ := false; Delete := false |} 100 3700],
     Returns "https://account.blob.core.windows.net/container/blob?") ∧
  NewRangeReader clientless_container (str "k") 0 (-1) {| BeforeRead := None |}
  = ([call_NewBlobClient (str "k")], Panics).
Proof. split; reflexivity. Qed.

(** ** Metadata keys *)

Example escapeMetadataKey_digit : escapeMetadataKey (str "1abc") = str "__0x31__abc".
Proof. reflexivity. Qed.
Example escapeMetadataKey_inner_digit : escapeMetadataKey (str "a1_b") = str "a1_b".
Proof. reflexivity. Qed.
Example escapeMetadataKey_dash : escapeMetadataKey (str "-") = str "__0x2d__".
Proof. reflexivity. Qed.
Example escapeMetadataKey_lookalike : escapeMetadataKey (str "__0x2d__") = str "__0x2d__".
Proof. reflexivity. Qed.

Section metadata.
Variable URLEscape : string → string.
Variable Quote : gostring → string.

(** The error of the loop names a key and its escaped form. *)
Lemma escapeMetadata_error entries : ∀ md err,
  escapeMetadata URLEscape Quote entries md = inr err →
  ∃ k, err = errorString ("duplicate keys after escaping: " +:+ Quote k
                            +:+ " => " +:+ Quote (escapeMetadataKey k)).
Proof.
  induction entries as [|[k v] entries IH]; intros md err; cbn [escapeMetadata]; [done|].
  destruct (md !! escapeMetadataKey k).
  - intros [= <-]. by exists k.
  - apply IH.
Qed.

(** When the loop succeeds, no escaped key was in the map at its start, and
    no two entries have one escaped key. *)
Lemma escapeMetadata_ok entries : ∀ md md',
  escapeMetadata URLEscape Quote entries md = inl md' →
  (∀ k, k ∈ entries.*1 → md !! escapeMetadataKey k = None) ∧
  (∀ k1 k2, k1 ∈ entries.*1 → k2 ∈ entries.*1 →
     escapeMetadataKey k1 = escapeMetadataKey k2 → k1 = k2).
Proof.
  induction entries as [|[k v] entries IH]; intros md md'; cbn [escapeMetadata].
  - intros _. split; [intros k Hk|intros k1 k2 Hk]; by apply elem_of_nil in Hk.
  - destruct (md !! escapeMetadataKey k) eqn:Hk; [done|].
    intros [Hfresh Hinj]%IH. cbn [fmap list_fmap fst].
    assert (∀ k', k' ∈ entries.*1 → escapeMetadataKey k' ≠ escapeMetadataKey k)
      as Hne.
    { intros k' Hk' Heq. specialize (Hfresh k' Hk').
      rewrite Heq, lookup_insert_eq in Hfresh. done. }
    split.
    + intros k' [->|Hk']%elem_of_cons; [done|].
      specialize (Hfresh k' Hk').
      rewrite lookup_insert_ne in Hfresh; [done|].
      intros Heq. by apply (Hne k' Hk').
    + intros k1 k2 [->|H1]%elem_of_cons [->|H2]%elem_of_cons Heq; [done| | |by apply Hinj].
      * by destruct (Hne k2 H2).
      * by destruct (Hne k1 H1).
Qed.

(** C9, as stated, fails: [-] and the text of its own marker are two keys
    with one escaped form; the writer is refused with a plain text for an
    error, reported as [Unknown], after the block blob client was made. *)
Lemma NewTypedWriter_duplicate_dash :
  NewTypedWriter (λ v, v) quote_ascii writable_container (str "k") "text/plain"
    (write_with [(str "-", "1"%string); (str "__0x2d__", "2"%string)])
  = ([call_NewBlockBlobClient (str "k")],
     Fails (errorString ("duplicate keys after escaping: "
                           +:+ quote_ascii (str "__0x2d__") +:+ " => "
                           +:+ quote_ascii (str "__0x2d__")))) ∧
  reported_code (errorString ("duplicate keys after escaping: "
                           +:+ quote_ascii (str "__0x2d__") +:+ " => "
                           +:+ quote_ascii (str "__0x2d__"))) = gcerrors.Unknown.
Proof. split; reflexivity. Qed.

(** C9 (amended): a leading ASCII digit of a metadata key is replaced by
    its marker; and when two distinct keys of the metadata have one escaped
    form and the block blob client is made without an error,
    [NewTypedWriter] fails with a plain error, which carries no code and
    names a key and its escaped form, having made no other call. *)
Theorem NewTypedWriter_metadata_keys (b : bucket) (key : gostring)
    (contentType : string) (opts : WriterOptions) :
  (∀ d rest, 48 ≤ d ≤ 57 →
     escapeMetadataKey (d :: rest) =
       escape.marker d ++ escape.escape_from shouldEscapeMetadataKey (d :: rest) 1 rest) ∧
  (∀ k1 k2, k1 ∈ (Metadata opts).*1 → k2 ∈ (Metadata opts).*1 → k1 ≠ k2 →
     escapeMetadataKey k1 = escapeMetadataKey k2 →
     (NewBlockBlobClient (client b) (escapeKey key false)).2 = None →
     ∃ k, NewTypedWriter URLEscape Quote b key contentType opts =
       ([call_NewBlockBlobClient (escapeKey key false)],
        Fails (errorString ("duplicate keys after escaping: " +:+ Quote k
                              +:+ " => " +:+ Quote (escapeMetadataKey k))))).
Proof.
  split.
  - intros d rest [Hlo Hhi]. unfold escapeMetadataKey, escape.HexEscape.
    cbn [escape.escape_from]. unfold shouldEscapeMetadataKey at 1.
    cbn [at_ nth Nat.eqb andb].
    apply N.leb_le in Hlo, Hhi. by rewrite Hlo, Hhi.
  - intros k1 k2 H1 H2 Hne Heq Hclient. unfold NewTypedWriter.
    destruct (NewBlockBlobClient _ _) as [blobClient err]. cbn in Hclient. subst err.
    destruct (escapeMetadata _ _ _ _) as [md|err] eqn:Hmd.
    + apply escapeMetadata_ok in Hmd as [_ Hinj]. by destruct (Hne (Hinj _ _ H1 H2 Heq)).
    + apply escapeMetadata_error in Hmd as [k ->]. by exists k.
Qed.

End metadata.

Lemma NewTypedWriter_metadata_keys_witness :
  escapeMetadataKey (str "2fast") = str "__0x32__fast" ∧
  ∃ k, NewTypedWriter (λ v, v) quote_ascii writable_container (str "k") "text/plain"
         (write_with [(str "a b", "1"%string); (str "a__0x20__b", "2"%string)])
       = ([call_NewBlockBlobClient (str "k")],
          Fails (errorString ("duplicate keys after escaping: " +:+ quote_ascii k
                                +:+ " => " +:+ quote_ascii (escapeMetadataKey k)))).
Proof.
  destruct (NewTypedWriter_metadata_keys (λ v, v) quote_ascii writable_container
              (str "k") "text/plain"
              (write_with [(str "a b", "1"%string); (str "a__0x20__b", "2"%string)]))
    as [Hdigit Hdup].
  split.
  - apply (Hdigit 50 (str "fast")). lia.
  - apply (Hdup (str "a b") (str "a__0x20__b")).
    + apply list_elem_of_lookup. exists 0%nat. reflexivity.
    + apply list_elem_of_lookup. exists 1%nat. reflexivity.
    + discriminate.
    + reflexivity.
    + reflexivity.
Defined.

(** ** The writer: empty writes *)

Example Write_then_Close :
  match NewTypedWriter (λ v, v) quote_ascii writable_container (str "k") "text/plain"
          (write_with []) with
  | (_, Returns w) =>
      let w1 := (Write w [Byte.x68; Byte.x69]).1 in
      let w2 := (Write w1 []).1 in
      let w3 := (Write w2 [Byte.x21]).1 in
      (Close w3).2 = Some ([call_UploadStream (PipeReader [Byte.x68; Byte.x69; Byte.x21])
                              (writer_uploadOpts w)], Returns ())
  | _ => False
  end.
Proof. reflexivity. Qed.

(** C10: [Write] with an empty slice returns [(0, nil)] and leaves the
    writer as it was, with no pipe made and no upload task started; so after
    any number of such writes the writer is the one it was, [Close] does on
    it what it does on a writer never written to, and that is to start the
    upload task with [http.NoBody] and hand back the error of that upload. *)
Theorem Write_empty_Close (w : writer) (ps : list bytes) :
  Forall (λ p, length p = 0%nat) ps →
  (∀ p, p ∈ ps → Write w p = (w, (0%Z, None))) ∧
  foldl (λ w p, (Write w p).1) w ps = w ∧
  Close (foldl (λ w p, (Write w p).1) w ps) = Close w ∧
  (∀ c, writer_w w = None → writer_client w = Some c →
     (Close w).2 =
       Some ([call_UploadStream NoBody (writer_uploadOpts w)],
             match UploadStream c NoBody (writer_uploadOpts w) with
             | Some err => Fails err
             | None => Returns ()
             end)).
Proof.
  intros Hps.
  assert (foldl (λ w p, (Write w p).1) w ps = w) as Hfold.
  { induction Hps as [|p ps Hp _ IH]; [done|]. cbn [foldl].
    unfold Write at 2. by rewrite Hp. }
  split; [|split; [done|split; [by rewrite Hfold|]]].
  - intros p Hp. rewrite Forall_forall in Hps. unfold Write. by rewrite (Hps p Hp).
  - intros c Hw Hc. unfold Close. rewrite Hw. unfold wait, open. cbn.
    rewrite Hc. unfold after, done_. by destruct (UploadStream c NoBody _).
Qed.

Lemma Write_empty_Close_witness :
  let w := {| writer_client := Some {| UploadStream := λ _ _, None |};
              writer_uploadOpts :=
                {| Upload_BufferSize := defaultUploadBlockSize;
                   MaxBuffers := defaultUploadBuffers; Upload_Metadata := ∅;
                   BlobCacheControl := EmptyString;
                   BlobContentDisposition := EmptyString;
                   BlobContentEncoding := EmptyString;
                   BlobContentLanguage := EmptyString; BlobContentMD5 := [];
                   BlobContentType := "text/plain" |};
              writer_w := None; writer_task := None |} in
  Write w [] = (w, (0%Z, None)) ∧
  (Close (foldl (λ w p, (Write w p).1) w [[]; []])).2 =
    Some ([call_UploadStream NoBody (writer_uploadOpts w)], Returns ()).
Proof.
  intros w.
  destruct (Write_empty_Close w [[]; []]) as (Hwrite & _ & Hclose & Hbody).
  { repeat constructor. }
  split.
  - apply Hwrite. apply list_elem_of_lookup. exists 0%nat. reflexivity.
  - rewrite Hclose. exact (Hbody _ eq_refl eq_refl).
Defined.

(** * Further properties *)

(** ** What an escaped key is made of *)

Section escaped_runes.
Import escape.

Lemma digits_of_uint_marker_rune d : Forall marker_rune (digits_of_uint d).
Proof.
  induction d; cbn [digits_of_uint]; constructor; try done;
    unfold marker_rune; lia.
Qed.

Lemma marker_marker_rune c : Forall marker_rune (marker c).
Proof.
  rewrite marker_unfold. repeat (constructor; [unfold marker_rune; lia|]).
  apply Forall_app. split; [apply digits_of_uint_marker_rune|].
  repeat constructor; unfold marker_rune; lia.
Qed.

(** The output of [HexEscape] on [runes]: every rune of it is a rune of a
    marker, or a rune of the input at an index where the predicate answers
    false. *)
Lemma escape_from_runes (P : rune → Prop) f runes :
  (∀ c, marker_rune c → P c) →
  (∀ i, (i < length runes)%nat → f runes i = false → P (at_ runes i)) →
  ∀ rest i, drop i runes = rest → Forall P (escape_from f runes i rest).
Proof.
  intros Hmarker Hkept. induction rest as [|c rest IH]; intros i Hdrop; [constructor|].
  cbn [escape_from]. apply Forall_app. split.
  - assert (runes !! i = Some c) as Hi.
    { pose proof (lookup_drop runes i 0) as H.
      rewrite Hdrop, Nat.add_0_r in H. done. }
    destruct (f runes i) eqn:Ef.
    + eapply Forall_impl; [apply marker_marker_rune|done].
    + constructor; [|constructor].
      replace c with (at_ runes i).
      * apply Hkept; [|done]. by apply lookup_lt_Some in Hi.
      * unfold at_. by apply nth_lookup_Some with (d := 0) in Hi.
  - apply IH. replace (S i) with (i + 1)%nat by lia.
    by rewrite <- drop_drop, Hdrop.
Qed.

End escaped_runes.

(** X1: an escaped key holds no backslash and no control character,
    whatever the key and whether it is a full key or a prefix. *)
Theorem escapeKey_no_backslash_no_control (key : gostring) (isPrefix : bool) :
  Forall (λ c, c ≠ 92 ∧ 32 ≤ c ∧ c ≠ 127) (escapeKey key isPrefix).
Proof.
  unfold escapeKey, escape.HexEscape.
  apply escape_from_runes; [| |done].
  - unfold marker_rune. lia.
  - intros i _. unfold shouldEscapeKey.
    destruct (N.eqb_spec (at_ key i) 92); [done|].
    destruct (N.ltb_spec (at_ key i) 32); [done|].
    destruct (N.eqb_spec (at_ key i) 127); [done|]. done.
Qed.

(** ** No [../] in an escaped key *)

Section dotdot.
Import escape.

Lemma strip_dot_marker c q l :
  strip (46 :: q) (marker c ++ l) = None.
Proof. rewrite marker_unfold. reflexivity. Qed.

(** Runes other than the first rune of [p] can be skipped. *)
Lemma occurs_skip x q m : ∀ l,
  Forall (λ c, c ≠ x) m → occurs (x :: q) (m ++ l) = occurs (x :: q) l.
Proof.
  induction m as [|c m IH]; intros l Hm; [done|].
  apply Forall_cons in Hm as [Hc Hm]. cbn [app occurs strip].
  destruct (N.eqb_spec x c) as [->|_]; [done|].
  rewrite bool_decide_false by (by intros [? ?]). by apply IH.
Qed.

Lemma marker_no_dot c : Forall (λ x, x ≠ 46) (marker c).
Proof.
  eapply Forall_impl; [apply marker_marker_rune|].
  unfold marker_rune. intros x Hx. lia.
Qed.

Lemma at_drop runes i j c rest :
  drop i runes = rest → rest !! j = Some c → at_ runes (i + j) = c.
Proof.
  intros <- Hj. rewrite lookup_drop in Hj.
  unfold at_. by apply nth_lookup_Some with (d := 0) in Hj.
Qed.

(** The slash after two dots is escaped, at any index and for any key. *)
Lemma shouldEscapeKey_dotdot key isPrefix r i :
  at_ r i = 46 → at_ r (S i) = 46 → at_ r (S (S i)) = 47 →
  shouldEscapeKey key isPrefix r (S (S i)) = true.
Proof.
  intros H0 H1 H2. unfold shouldEscapeKey.
  replace (S (S i) - 1)%nat with (S i) by lia.
  replace (S (S i) - 2)%nat with i by lia.
  rewrite H0, H1, H2. cbn [N.eqb N.ltb N.compare orb Pos.eqb Pos.compare Pos.compare_cont].
  destruct (negb isPrefix && _ && _); [done|].
  by destruct i.
Qed.

Lemma escape_from_no_dotdot key isPrefix : ∀ rest i,
  drop i key = rest →
  occurs (str "../") (escape_from (shouldEscapeKey key isPrefix) key i rest) = false.
Proof.
  change (str "../") with [46; 46; 47].
  induction rest as [|c rest IH]; intros i Hdrop; [done|].
  assert (drop (S i) key = rest) as Hdrop'.
  { replace (S i) with (i + 1)%nat by lia. by rewrite <- drop_drop, Hdrop. }
  specialize (IH (S i) Hdrop').
  cbn [escape_from].
  destruct (shouldEscapeKey key isPrefix key i) eqn:E0.
  { rewrite occurs_skip; [done|apply marker_no_dot]. }
  cbn [app occurs]. rewrite IH, orb_false_r.
  apply bool_decide_eq_false. intros [tl Htl]. revert Htl.
  cbn [strip]. destruct (N.eqb_spec 46 c) as [<-|_]; [|done].
  destruct rest as [|c2 rest2]; [done|]. cbn [escape_from].
  destruct (shouldEscapeKey key isPrefix key (S i)) eqn:E1.
  { rewrite marker_unfold. cbn. done. }
  cbn [app strip]. destruct (N.eqb_spec 46 c2) as [<-|_]; [|done].
  destruct rest2 as [|c3 rest3]; [done|]. cbn [escape_from].
  destruct (shouldEscapeKey key isPrefix key (S (S i))) eqn:E2.
  { rewrite marker_unfold. cbn. done. }
  cbn [app strip]. destruct (N.eqb_spec 47 c3) as [<-|_]; [|done].
  rewrite shouldEscapeKey_dotdot in E2; [done| | |].
  - rewrite <- (Nat.add_0_r i). by eapply at_drop.
  - replace (S i) with (i + 1)%nat by lia. by eapply at_drop.
  - replace (S (S i)) with (i + 2)%nat by lia. by eapply at_drop.
Qed.

End dotdot.

(** X2: the three runes [../] occur in no escaped key: the slash that
    follows two dots is always escaped, and no marker holds a dot or a
    slash. *)
Theorem escapeKey_no_dotdot_slash (key : gostring) (isPrefix : bool) :
  occurs (str "../") (escapeKey key isPrefix) = false.
Proof. by apply escape_from_no_dotdot. Qed.

(** ** Prefixes *)

(** X3: the escaped form of a prefix, escaped as a prefix, is a prefix of
    the escaped form of every full key that goes on after it: the names a
    listing asks for by prefix are those of the keys that extend the
    prefix. *)
Theorem escapeKey_prefix (p rest : gostring) :
  rest ≠ [] →
  escapeKey p true `prefix_of` escapeKey (p ++ rest) false.
Proof.
  intros Hrest. unfold escapeKey at 2, escape.HexEscape.
  rewrite escape_from_app.
  eexists. f_equal. apply escape_from_ext.
  intros j Hj. cbn in Hj.
  apply shouldEscapeKey_inner; rewrite ?at_app_l by lia; try done.
  pose proof (len_ge_length p). pose proof (len_ge_length rest).
  rewrite len_app. destruct rest; [done|]. cbn [length] in *. lia.
Qed.

Lemma escapeKey_prefix_witness :
  escapeKey (str "a\b/") true `prefix_of` escapeKey (str "a\b/c/") false.
Proof. apply (escapeKey_prefix (str "a\b/") (str "c/")). discriminate. Defined.

(** A key is not found under itself as a prefix when it ends in a slash. *)
Example escapeKey_prefix_itself :
  escapeKey (str "a/") true = str "a/" ∧ escapeKey (str "a/") false = str "a__0x2f__".
Proof. split; reflexivity. Qed.

(** ** Metadata keys *)

(** X4: a metadata key in which [__0x] does not occur is read back by
    [HexUnescape], as [Attributes] applies it, from the escaped form
    [NewTypedWriter] stores. *)
Theorem HexUnescape_escapeMetadataKey (k : gostring) :
  has_marker_open k = false → escape.HexUnescape (escapeMetadataKey k) = k.
Proof. apply HexUnescape_HexEscape. Qed.

Lemma HexUnescape_escapeMetadataKey_witness :
  escape.HexUnescape (escapeMetadataKey (str "2 fast-ok_")) = str "2 fast-ok_".
Proof. apply (HexUnescape_escapeMetadataKey (str "2 fast-ok_")). reflexivity. Defined.

Lemma marker_rune_identifier c : marker_rune c → identifier_rune c = true.
Proof.
  unfold marker_rune, identifier_rune, IsASCIIAlphanumeric. intros H.
  destruct (N.leb_spec 65 c), (N.leb_spec c 90), (N.leb_spec 97 c),
    (N.leb_spec c 122), (N.leb_spec 48 c), (N.leb_spec c 57), (N.eqb_spec c 95);
    cbn; try done; lia.
Qed.

(** X5: an escaped metadata key is written with ASCII letters, digits and
    underscores only, and does not start with a digit. *)
Theorem escapeMetadataKey_identifier (k : gostring) :
  Forall (λ c, identifier_rune c = true) (escapeMetadataKey k) ∧
  ∀ c rest, escapeMetadataKey k = c :: rest → ¬ (48 ≤ c ≤ 57).
Proof.
  split.
  - unfold escapeMetadataKey, escape.HexEscape.
    apply escape_from_runes; [apply marker_rune_identifier| |done].
    intros i _. unfold shouldEscapeMetadataKey, identifier_rune.
    destruct ((i =? 0)%nat && _ && _); [done|].
    destruct (IsASCIIAlphanumeric (at_ k i)); [done|].
    by destruct (at_ k i =? 95).
  - intros c rest. unfold escapeMetadataKey, escape.HexEscape.
    destruct k as [|d k]; [done|]. cbn [escape.escape_from].
    unfold shouldEscapeMetadataKey at 1. cbn [at_ nth Nat.eqb andb].
    destruct ((48 <=? d) && (d <=? 57)) eqn:E.
    + rewrite marker_unfold. intros [= <- _]. lia.
    + assert (¬ (48 ≤ d ≤ 57)) as Hd.
      { apply andb_false_iff in E as [E%N.leb_gt|E%N.leb_gt]; lia. }
      destruct (IsASCIIAlphanumeric d); [|destruct (d =? 95)];
        rewrite ?marker_unfold; intros [= <- _]; (done || lia).
Qed.

Lemma escapeMetadataKey_identifier_witness :
  escapeMetadataKey (str "1a") = str "__0x31__a" ∧ ¬ (48 ≤ 95 ≤ 57).
Proof.
  split; [reflexivity|].
  exact (proj2 (escapeMetadataKey_identifier (str "1a")) 95 (str "_0x31__a") eq_refl).
Defined.

(** ** More on error classification *)

(** X6: [ErrorCode] gives one of three codes, whatever the error. *)
Theorem ErrorCode_range (err : error) :
  ErrorCode err = gcerrors.NotFound ∨
  ErrorCode err = gcerrors.PermissionDenied ∨
  ErrorCode err = gcerrors.Unknown.
Proof.
  destruct (structured err) as [[c s]|] eqn:E.
  - rewrite (ErrorCode_found _ _ _ E). repeat case_match; auto.
  - rewrite (ErrorCode_not_found _ E). case_match; auto.
Qed.

(** X7: an error that carries a code and a status is classified as before
    when it is wrapped, whatever the text of the wrapper. *)
Theorem ErrorCode_wrapError (text : string) (err : error) (c : string) (s : Z) :
  Carries err c s → ErrorCode (wrapError text err) = ErrorCode err.
Proof.
  intros H. assert (Carries (wrapError text err) c s) as H' by by constructor.
  apply Carries_found in H, H'.
  by rewrite (ErrorCode_found _ _ _ H), (ErrorCode_found _ _ _ H').
Qed.

Lemma ErrorCode_wrapError_witness :
  ErrorCode (wrapError "lookup: no such host" (ResponseError "AuthenticationFailed" 403 "denied"))
  = ErrorCode (ResponseError "AuthenticationFailed" 403 "denied").
Proof.
  apply (ErrorCode_wrapError _ _ "AuthenticationFailed" 403). constructor.
Defined.

(** ** The size of a ranged read *)

Section getSize_facts.

Lemma Split_slash_no_slash s : has_slash s = false → Split_slash s = [s].
Proof.
  induction s as [|c s IH]; [done|]. cbn [has_slash Split_slash].
  intros [Hc Hs]%orb_false_iff. by rewrite Hc, (IH Hs).
Qed.

Lemma Split_slash_app a t :
  has_slash a = false →
  Split_slash (a +:+ String "/" t) = a :: Split_slash t.
Proof.
  induction a as [|c a IH]; [done|]. cbn [has_slash].
  intros [Hc Ha]%orb_false_iff.
  change (Split_slash (String c (a +:+ String "/" t)) = String c a :: Split_slash t).
  cbn [Split_slash]. by rewrite Hc, (IH Ha).
Qed.

Lemma has_slash_string_of_uint d :
  has_slash (DecimalString.NilEmpty.string_of_uint d) = false.
Proof. induction d; cbn; done. Qed.

Lemma decimal_acc d : ∀ acc,
  decimal (Z.pos acc) (DecimalString.NilEmpty.string_of_uint d)
  = Some (Z.pos (Pos.of_uint_acc d acc)).
Proof.
  induction d; intros acc; cbn [DecimalString.NilEmpty.string_of_uint Pos.of_uint_acc];
    [done|..];
    match goal with
    | |- decimal ?a (String ?c ?s) = _ =>
        change (decimal a (String c s))
          with (decimal (a * 10 + (Z.of_N (N_of_ascii c) - 48)) s)
    end;
    rewrite <- IHd; f_equal; cbn; lia.
Qed.

Lemma decimal_of_uint d :
  decimal 0 (DecimalString.NilEmpty.string_of_uint d) = Some (Z.of_N (N.of_uint d)).
Proof.
  induction d; cbn [DecimalString.NilEmpty.string_of_uint]; [done|exact IHd|..];
    match goal with
    | |- decimal 0 (String ?c ?s) = _ =>
        change (decimal 0 (String c s))
          with (decimal (Z.pos (Pos.of_succ_nat (Nat.pred (N.to_nat (N_of_ascii c - 48))))) s)
    end;
    rewrite decimal_acc; reflexivity.
Qed.

Lemma ParseInt_digits d :
  d ≠ Decimal.Nil →
  ParseInt_10_64 (DecimalString.NilEmpty.string_of_uint d) =
    match decimal 0 (DecimalString.NilEmpty.string_of_uint d) with
    | Some i => if ((- 2 ^ 63 <=? i) && (i <? 2 ^ 63))%Z then Some i else None
    | None => None
    end.
Proof. destruct d; [done|..]; intros _; reflexivity. Qed.

Lemma ParseInt_decimal_string n :
  n < 2 ^ 63 → ParseInt_10_64 (decimal_string n) = Some (Z.of_N n).
Proof.
  intros Hn. unfold decimal_string.
  pose proof (DecimalN.Unsigned.of_to n) as Hof.
  assert (N.to_uint n ≠ Decimal.Nil) as Hnil.
  { intros E. rewrite E in Hof. cbn in Hof. subst n. discriminate E. }
  rewrite ParseInt_digits by done. rewrite decimal_of_uint, Hof.
  replace ((- 2 ^ 63 <=? Z.of_N n)%Z && (Z.of_N n <? 2 ^ 63)%Z) with true; [done|].
  symmetry. apply andb_true_iff. split; [apply Z.leb_le|apply Z.ltb_lt]; lia.
Qed.

End getSize_facts.

(** X8: with a content range that has no slash in it, the empty one
    included, [getSize] gives the content length; with a content range that
    ends, after its one slash, in the decimal numeral of a total below 2^63,
    it gives that total, whatever the content length. *)
Theorem getSize_total (contentLength : Z) (range : string) (total : N) :
  has_slash range = false →
  getSize contentLength range = contentLength ∧
  (total < 2 ^ 63 →
   getSize contentLength (range +:+ String "/" (decimal_string total)) = Z.of_N total).
Proof.
  intros Hrange. split.
  - unfold getSize. destruct (String.eqb range EmptyString); [done|].
    cbn [negb]. by rewrite Split_slash_no_slash.
  - intros Htotal. unfold getSize.
    destruct (String.eqb_spec (range +:+ String "/" (decimal_string total)) EmptyString)
      as [E|_].
    { by destruct range. }
    cbn [negb]. rewrite Split_slash_app by done.
    rewrite Split_slash_no_slash by apply has_slash_string_of_uint.
    by rewrite ParseInt_decimal_string.
Qed.

Lemma getSize_total_witness :
  getSize 5 "bytes 10-14" = 5%Z ∧ getSize 5 "bytes 10-14/27" = 27%Z.
Proof.
  destruct (getSize_total 5 "bytes 10-14" 27 eq_refl) as [H1 H2].
  split; [exact H1|]. apply H2. reflexivity.
Defined.

(** ** The metadata map, written and read back *)

Section metadata_map.
Variable URLEscape : string → string.
Variable URLUnescape : string → string.
Variable Quote : gostring → string.

(** The loop of [NewTypedWriter] succeeds from the map [md0] exactly when no
    two entries have one escaped key and no escaped key is in [md0]; the map
    it gives then holds the escaped entries on top of [md0]. *)
Lemma escapeMetadata_inl entries : ∀ md0 md,
  escapeMetadata URLEscape Quote entries md0 = inl md ↔
  NoDup (escapedEntry URLEscape <$> entries).*1 ∧
  (∀ e, e ∈ (escapedEntry URLEscape <$> entries).*1 → md0 !! e = None) ∧
  md = list_to_map (escapedEntry URLEscape <$> entries) ∪ md0.
Proof.
  induction entries as [|[k v] entries IH]; intros md0 md; cbn [escapeMetadata].
  - cbn. rewrite (left_id_L ∅ (∪)). split.
    + intros [= ->]. split; [constructor|]. split; [|done].
      intros e He. by apply elem_of_nil in He.
    + by intros (_ & _ & ->).
  - cbn [fmap list_fmap]. fold (fmap (M := list) (escapedEntry URLEscape) entries).
    cbn [escapedEntry fst snd].
    change (escapedEntry URLEscape (k, v)) with (escapeMetadataKey k, URLEscape v).
    rewrite list_to_map_cons.
    set (E := escapedEntry URLEscape <$> entries).
    destruct (md0 !! escapeMetadataKey k) eqn:Hk.
    + split; [done|]. intros (_ & Hfresh & _).
      rewrite Hfresh in Hk; [done|]. cbn. apply elem_of_cons. by left.
    + rewrite IH. fold E. rewrite NoDup_cons. split.
      * intros (Hnd & Hfresh & ->).
        assert (escapeMetadataKey k ∉ E.*1) as Hnotin.
        { intros Hin. apply Hfresh in Hin. by rewrite lookup_insert_eq in Hin. }
        split; [done|]. split.
        -- intros e [->|He]%elem_of_cons; [done|].
           specialize (Hfresh e He).
           rewrite lookup_insert_ne in Hfresh; [done|]. intros <-. done.
        -- rewrite <- insert_union_l, insert_union_r; [done|].
           by apply not_elem_of_list_to_map.
      * intros ([Hnotin Hnd] & Hfresh & ->). split; [done|]. split.
        -- intros e He. rewrite lookup_insert_ne.
           ++ apply Hfresh. apply elem_of_cons. by right.
           ++ intros <-. done.
        -- rewrite <- insert_union_l, insert_union_r; [done|].
           by apply not_elem_of_list_to_map.
Qed.

(** The loop of [Attributes], on entries no two of which are read as one
    key, gives the map of the entries as read on top of the map it starts
    from. *)
Lemma unescapeMetadata_list_to_map stored : ∀ md0,
  NoDup (unescapedEntry URLUnescape <$> stored).*1 →
  (∀ k, k ∈ (unescapedEntry URLUnescape <$> stored).*1 → md0 !! k = None) →
  unescapeMetadata URLUnescape stored md0 =
    list_to_map (unescapedEntry URLUnescape <$> stored) ∪ md0.
Proof.
  induction stored as [|[e v] stored IH]; intros md0; cbn [unescapeMetadata].
  - intros _ _. cbn. by rewrite (left_id_L ∅ (∪)).
  - cbn [fmap list_fmap]. fold (fmap (M := list) (unescapedEntry URLUnescape) stored).
    cbn [unescapedEntry fst snd].
    change (unescapedEntry URLUnescape (e, v)) with (escape.HexUnescape e, URLUnescape v).
    rewrite list_to_map_cons, NoDup_cons.
    intros [Hnotin Hnd] Hfresh. rewrite IH; [| done |].
    + rewrite <- insert_union_l, insert_union_r; [done|].
      by apply not_elem_of_list_to_map.
    + intros k Hk. rewrite lookup_insert_ne.
      * apply Hfresh. apply elem_of_cons. by right.
      * intros <-. done.
Qed.

(** X9: with the block blob client made and no [BeforeWrite] hook,
    [NewTypedWriter] gives a writer exactly when no two keys of the metadata
    have one escaped form; the writer then has no pipe and no upload task,
    and its upload options hold every entry of the metadata under its
    escaped key, with its value escaped. *)
Theorem NewTypedWriter_metadata (b : bucket) (key : gostring) (contentType : string)
    (opts : WriterOptions) (blobClient : option BlockBlobClient) :
  NewBlockBlobClient (client b) (escapeKey key false) = (blobClient, None) →
  BeforeWrite opts = None →
  ((∃ w, (NewTypedWriter URLEscape Quote b key contentType opts).2 = Returns w) ↔
   NoDup (escapeMetadataKey <$> (Metadata opts).*1)) ∧
  (∀ w, (NewTypedWriter URLEscape Quote b key contentType opts).2 = Returns w →
     writer_w w = None ∧ writer_task w = None ∧
     Upload_Metadata (writer_uploadOpts w) =
       list_to_map (escapedEntry URLEscape <$> Metadata opts) ∧
     ∀ k v, (k, v) ∈ Metadata opts →
       Upload_Metadata (writer_uploadOpts w) !! escapeMetadataKey k = Some (URLEscape v)).
Proof.
  intros Hclient Hhook.
  assert ((escapedEntry URLEscape <$> Metadata opts).*1
          = escapeMetadataKey <$> (Metadata opts).*1) as Hkeys.
  { rewrite <- !list_fmap_compose. done. }
  unfold NewTypedWriter. rewrite Hclient, Hhook. cbn [run_hook after done_ fst snd].
  destruct (escapeMetadata _ _ _ _) as [md|err] eqn:Hmd.
  - apply escapeMetadata_inl in Hmd as (Hnd & _ & ->).
    rewrite (right_id_L ∅ (∪)). rewrite Hkeys in Hnd. split.
    + split; [done|]. intros _. eexists. done.
    + intros w [= <-]. cbn. split; [done|]. split; [done|]. split; [done|].
      intros k v Hkv. apply elem_of_list_to_map_1; [by rewrite Hkeys|].
      apply list_elem_of_fmap. by exists (k, v).
  - split; [|done]. split; [by intros [w ?]|]. intros Hnd. exfalso.
    assert (∃ md, escapeMetadata URLEscape Quote (Metadata opts) ∅ = inl md) as [md Hok].
    { eexists. apply escapeMetadata_inl. rewrite Hkeys. split; [done|]. split; [|done].
      intros e _. apply lookup_empty. }
    congruence.
Qed.

(** When the loop of [NewTypedWriter] succeeds on entries in none of whose
    keys [__0x] occurs, and unescaping undoes the escaping of the values, the
    loop of [Attributes], run on the stored entries in any order, gives back
    the map of the entries. *)
Lemma unescapeMetadata_escapeMetadata (entries stored : list (gostring * string))
    (md : gmap gostring string) :
  (∀ v, URLUnescape (URLEscape v) = v) →
  (∀ k, k ∈ entries.*1 → has_marker_open k = false) →
  escapeMetadata URLEscape Quote entries ∅ = inl md →
  stored ≡ₚ map_to_list md →
  unescapeMetadata URLUnescape stored ∅ = list_to_map entries.
Proof.
  intros Hurl Hkeys Hmd Hstored.
  apply escapeMetadata_inl in Hmd as (Hnd & _ & ->).
  rewrite (right_id_L ∅ (∪)) in Hstored.
  rewrite map_to_list_to_map in Hstored by done.
  assert (unescapedEntry URLUnescape <$> (escapedEntry URLEscape <$> entries) = entries)
    as Hback.
  { clear Hnd Hstored. induction entries as [|[k v] entries IH]; [done|].
    cbn [fmap list_fmap].
    fold (fmap (M := list) (escapedEntry URLEscape) entries).
    fold (fmap (M := list) (unescapedEntry URLUnescape) (escapedEntry URLEscape <$> entries)).
    rewrite IH.
    - unfold unescapedEntry, escapedEntry, escapeMetadataKey. cbn [fst snd].
      rewrite Hurl, HexUnescape_HexEscape; [done|].
      apply Hkeys. cbn. apply elem_of_cons. by left.
    - intros k' Hk'. apply Hkeys. cbn. apply elem_of_cons. by right. }
  assert (unescapedEntry URLUnescape <$> stored ≡ₚ entries) as Hperm.
  { by rewrite Hstored, Hback. }
  assert (NoDup entries.*1) as Hnd'.
  { rewrite <- list_fmap_compose in Hnd.
    apply (NoDup_fmap_1 escapeMetadataKey). by rewrite <- list_fmap_compose. }
  rewrite unescapeMetadata_list_to_map.
  - rewrite (right_id_L ∅ (∪)). apply list_to_map_proper; [|done]. by rewrite Hperm.
  - by rewrite Hperm.
  - intros k _. apply lookup_empty.
Qed.

(** X10: the metadata [NewTypedWriter] stores is the metadata [Attributes]
    reads.  Take a writer made with no [BeforeWrite] hook for metadata in
    none of whose keys [__0x] occurs, and a blob whose properties hold the
    metadata of the writer's upload options, in any order, and the two
    times; if unescaping undoes the escaping of the values, [Attributes]
    gives the map of the metadata the writer was made with. *)
Theorem Attributes_NewTypedWriter_metadata (b b' : bucket) (key key' : gostring)
    (contentType : string) (opts : WriterOptions) (w : writer) (blob : BlobClient)
    (properties : BlobClient → BlobGetPropertiesResponse * option error)
    (resp : BlobGetPropertiesResponse) :
  (∀ v, URLUnescape (URLEscape v) = v) →
  (∀ k, k ∈ (Metadata opts).*1 → has_marker_open k = false) →
  BeforeWrite opts = None →
  (NewTypedWriter URLEscape Quote b key contentType opts).2 = Returns w →
  NewBlobClient (client b') (escapeKey key' false) = (Some blob, None) →
  properties blob = (resp, None) →
  Properties_Metadata resp ≡ₚ map_to_list (Upload_Metadata (writer_uploadOpts w)) →
  is_Some (Properties_CreationTime resp) →
  is_Some (Properties_LastModified resp) →
  ∃ a, (Attributes URLUnescape b' properties key').2 = Returns a ∧
       Attributes_Metadata a = list_to_map (Metadata opts).
Proof.
  intros Hurl Hkeys Hhook Hw Hblob Hprops Hstored [ct Hct] [mt Hmt].
  assert (∃ md, escapeMetadata URLEscape Quote (Metadata opts) ∅ = inl md ∧
                Upload_Metadata (writer_uploadOpts w) = md) as (md & Hmd & Hup).
  { revert Hw. unfold NewTypedWriter. cbn [after snd].
    destruct (NewBlockBlobClient _ _) as [c [err|]]; [done|].
    destruct (escapeMetadata _ _ _ _) as [md|err]; [|done].
    rewrite Hhook. cbn. intros [= <-]. by exists md. }
  rewrite Hup in Hstored.
  unfold Attributes. rewrite Hblob. cbn [after snd]. rewrite Hprops, Hct, Hmt.
  eexists. split; [done|]. cbn [Attributes_Metadata].
  by eapply unescapeMetadata_escapeMetadata.
Qed.

End metadata_map.

Lemma unescapeMetadata_escapeMetadata_witness :
  unescapeMetadata (λ v, v)
    [(str "__0x39__lives", "yes"%string); (str "a__0x20__b", "1"%string)] ∅
  = list_to_map [(str "a b", "1"%string); (str "9lives", "yes"%string)].
Proof.
  apply (unescapeMetadata_escapeMetadata (λ v, v) (λ v, v) quote_ascii
           [(str "a b", "1"%string); (str "9lives", "yes"%string)] _
           (list_to_map [(str "a__0x20__b", "1"%string); (str "__0x39__lives", "yes"%string)])).
  - done.
  - intros k Hk. cbn in Hk. apply elem_of_cons in Hk as [->|Hk]; [reflexivity|].
    apply elem_of_cons in Hk as [->|Hk]; [reflexivity|]. by apply elem_of_nil in Hk.
  - reflexivity.
  - symmetry. etrans; [apply map_to_list_to_map|].
    + apply (bool_decide_unpack _). reflexivity.
    + apply Permutation_swap.
Defined.

Lemma Attributes_NewTypedWriter_metadata_witness :
  ∃ a, (Attributes (λ v, v) (container_of unsignable_blob)
          (λ _, (properties_with
                   [(str "__0x39__lives", "yes"%string); (str "a__0x20__b", "1"%string)],
                 None))
          (str "k")).2 = Returns a ∧
       Attributes_Metadata a =
         list_to_map [(str "a b", "1"%string); (str "9lives", "yes"%string)].
Proof.
  destruct (NewTypedWriter (λ v, v) quote_ascii writable_container (str "k") "text/plain"
              (write_with [(str "a b", "1"%string); (str "9lives", "yes"%string)])).2
    as [w| |] eqn:Hw; [|discriminate Hw..].
  apply (Attributes_NewTypedWriter_metadata (λ v, v) (λ v, v) quote_ascii
           writable_container (container_of unsignable_blob) (str "k") (str "k")
           "text/plain"
           (write_with [(str "a b", "1"%string); (str "9lives", "yes"%string)])
           w unsignable_blob _
           (properties_with
              [(str "__0x39__lives", "yes"%string); (str "a__0x20__b", "1"%string)])).
  - done.
  - intros k Hk. cbn in Hk. apply elem_of_cons in Hk as [->|Hk]; [reflexivity|].
    apply elem_of_cons in Hk as [->|Hk]; [reflexivity|]. by apply elem_of_nil in Hk.
  - reflexivity.
  - exact Hw.
  - reflexivity.
  - reflexivity.
  - injection Hw as <-.
    change ([(str "__0x39__lives", "yes"%string); (str "a__0x20__b", "1"%string)]
            ≡ₚ map_to_list (list_to_map
                 [(str "a__0x20__b", "1"%string); (str "__0x39__lives", "yes"%string)]
                 : gmap gostring string)).
    symmetry. etrans; [apply map_to_list_to_map|].
    + apply (bool_decide_unpack _). reflexivity.
    + apply Permutation_swap.
  - by eexists.
  - by eexists.
Defined.

Lemma NewTypedWriter_metadata_witness :
  ∃ w, (NewTypedWriter (λ v, v) quote_ascii writable_container (str "k") "text/plain"
          (write_with [(str "a b", "1"%string); (str "9lives", "yes"%string)])).2
       = Returns w.
Proof.
  destruct (NewTypedWriter_metadata (λ v, v) quote_ascii writable_container
              (str "k") "text/plain"
              (write_with [(str "a b", "1"%string); (str "9lives", "yes"%string)])
              (Some {| UploadStream := λ _ _, None |}) eq_refl eq_refl) as [[_ H] _].
  apply H. apply (bool_decide_unpack _). reflexivity.
Defined.

(** ** Service URLs *)

Section service_url_facts.
Variable Quote : string → string.

(** X11: [NewServiceURL] fails exactly when the account name is empty or
    the protocol is neither empty, nor [http], nor [https]; without options
    it fails. *)
Theorem NewServiceURL_fails (opts : ServiceURLOptions) :
  ((∃ err, NewServiceURL Quote (Some opts) = Fails err) ↔
   AccountName opts = EmptyString ∨
   (Protocol opts ≠ EmptyString ∧ Protocol opts ≠ "http" ∧ Protocol opts ≠ "https")) ∧
  NewServiceURL Quote (Some opts) ≠ Panics ∧
  NewServiceURL Quote None = Fails (errorString "azureblob: Options.AccountName is required").
Proof.
  unfold NewServiceURL. split; [|split; [|done]].
  - destruct (String.eqb_spec (AccountName opts) EmptyString) as [Ha|Ha].
    { split; [by left|]. intros _. by eexists. }
    destruct (String.eqb_spec (Protocol opts) EmptyString) as [Hp|Hp];
      destruct (String.eqb_spec (Protocol opts) "http") as [Hp1|Hp1];
      destruct (String.eqb_spec (Protocol opts) "https") as [Hp2|Hp2];
      cbn [negb andb]; split;
      try (intros [err ?]; done); try (intros _; by eexists);
      try (intros [?|(?&?&?)]; done); try (intros _; right; done).
  - destruct (String.eqb (AccountName opts) EmptyString); [done|].
    by destruct (negb _ && negb _ && negb _).
Qed.

Lemma prefix_append (p s : string) : String.prefix p (p +:+ s) = true.
Proof.
  induction p as [|a p IH].
  - by destruct s.
  - change (String a p +:+ s) with (String a (p +:+ s)). cbn [String.prefix].
    by destruct (Ascii.ascii_dec a a).
Qed.

(** X12: a service URL that is given starts with [https://] or [http://];
    and a SAS token, when there is one, goes at its end after a question
    mark: the URL is the one for the options without the token, then [?],
    then the token. *)
Theorem NewServiceURL_shape (opts : ServiceURLOptions) (svcURL : string) :
  NewServiceURL Quote (Some opts) = Returns svcURL →
  (String.prefix "https://" svcURL = true ∨ String.prefix "http://" svcURL = true) ∧
  ∃ base, NewServiceURL Quote (Some (without_SASToken opts)) = Returns base ∧
    svcURL = if String.eqb (SASToken opts) EmptyString then base
             else base +:+ "?" +:+ SASToken opts.
Proof.
  unfold NewServiceURL. cbn [without_SASToken AccountName StorageDomain Protocol IsCDN
    IsLocalEmulator SASToken].
  destruct (String.eqb (AccountName opts) EmptyString); [done|].
  set (domain := if String.eqb (StorageDomain opts) EmptyString
                 then "blob.core.windows.net"%string else StorageDomain opts).
  destruct (String.eqb_spec (Protocol opts) EmptyString) as [Hp|Hp];
    destruct (String.eqb_spec (Protocol opts) "http") as [Hp1|Hp1];
    destruct (String.eqb_spec (Protocol opts) "https") as [Hp2|Hp2];
    cbn [negb andb]; try done; try congruence;
    rewrite ?Hp1, ?Hp2;
    intros [= <-];
    (split;
     [|eexists; split; [reflexivity|];
       destruct (String.eqb (SASToken opts) EmptyString); reflexivity]);
    destruct (String.eqb (SASToken opts) EmptyString),
      (String.prefix "127.0.0.1" domain || String.prefix "localhost" domain
       || IsLocalEmulator opts), (IsCDN opts); cbn [negb];
    ((left; exact (prefix_append "https://" _))
     || (right; exact (prefix_append "http://" _))).
Qed.


(** ** Query parameters *)

Lemma override_valid o param values :
  (∃ r, override Quote o param values = Returns r) ↔
  valid_override (param, values) = true.
Proof.
  unfold override, valid_override. cbn [fst snd].
  destruct values as [|value [|value' values]]; cbn [length Nat.ltb Nat.leb].
  - split; [by intros [r ?]|done].
  - destruct (String.eqb_spec param "domain") as [->|H1].
    { split; [intros _; reflexivity|intros _; by eexists]. }
    destruct (String.eqb_spec param "protocol") as [->|H2].
    { split; [intros _; reflexivity|intros _; by eexists]. }
    destruct (String.eqb_spec param "cdn") as [->|H3].
    { destruct (ParseBool value) eqn:E.
      - split; [intros _; reflexivity|intros _; by eexists].
      - split; [by intros [r ?]|done]. }
    destruct (String.eqb_spec param "localemu") as [->|H4].
    { destruct (ParseBool value) eqn:E.
      - split; [intros _; reflexivity|intros _; by eexists].
      - split; [by intros [r ?]|done]. }
    destruct (String.eqb_spec param "storage_account") as [->|H5].
    { split; [intros _; reflexivity|intros _; by eexists]. }
    split; [by intros [r ?]|].
    intros [H%bool_decide_eq_true|[H%bool_decide_eq_true _]%andb_true_iff]%orb_true_iff;
      rewrite !elem_of_cons, elem_of_nil in H; intuition congruence.
  - split; [by intros [r ?]|done].
Qed.

Lemma override_SASToken o param values r :
  override Quote o param values = Returns r → SASToken r = SASToken o.
Proof.
  unfold override. repeat case_match; try done; by intros [= <-].
Qed.

(** X13: [withOverrides] gives options exactly when every parameter of the
    query is one of [domain], [protocol], [cdn], [localemu] and
    [storage_account] with a single value, a boolean for [cdn] and
    [localemu]; whatever the order the parameters are met in.  The options
    it gives keep the SAS token. *)
Theorem withOverrides_succeeds (o : ServiceURLOptions) (urlValues : list (string * list string)) :
  ((∃ r, withOverrides Quote o urlValues = Returns r) ↔
   forallb valid_override urlValues = true) ∧
  (∀ r, withOverrides Quote o urlValues = Returns r → SASToken r = SASToken o).
Proof.
  revert o. induction urlValues as [|[param values] urlValues IH]; intros o.
  - split; [|by intros r [= <-]]. split; [done|]. intros _. by eexists.
  - cbn [withOverrides forallb]. split.
    + rewrite andb_true_iff, <- (override_valid o param values).
      destruct (override Quote o param values) as [r| |] eqn:E.
      * destruct (IH r) as [-> _]. split; [|tauto]. intros H. split; [by eexists|done].
      * split; [by intros [r ?]|]. by intros [[r ?] _].
      * split; [by intros [r ?]|]. by intros [[r ?] _].
    + intros r. destruct (override Quote o param values) as [r'| |] eqn:E; [|done..].
      intros Hr. apply IH in Hr. rewrite Hr. by eapply override_SASToken.
Qed.

Lemma override_commute o p1 v1 p2 v2 o1 o2 :
  p1 ≠ p2 →
  override Quote o p1 v1 = Returns o1 → override Quote o1 p2 v2 = Returns o2 →
  ∃ o1', override Quote o p2 v2 = Returns o1' ∧ override Quote o1' p1 v1 = Returns o2.
Proof.
  intros Hne. unfold override.
  destruct v1 as [|x1 [|? ?]]; cbn [length Nat.ltb Nat.leb]; [done| |done].
  destruct v2 as [|x2 [|? ?]]; cbn [length Nat.ltb Nat.leb];
    [repeat case_match; done| |repeat case_match; done].
  destruct (String.eqb_spec p1 "domain"), (String.eqb_spec p1 "protocol"),
    (String.eqb_spec p1 "cdn"), (String.eqb_spec p1 "localemu"),
    (String.eqb_spec p1 "storage_account"); subst; try done;
  destruct (String.eqb_spec p2 "domain"), (String.eqb_spec p2 "protocol"),
    (String.eqb_spec p2 "cdn"), (String.eqb_spec p2 "localemu"),
    (String.eqb_spec p2 "storage_account"); subst; try done;
  destruct (ParseBool x1), (ParseBool x2); try done;
  intros [= <-] [= <-]; eexists; split; reflexivity.
Qed.

(** X14: the options [withOverrides] gives do not depend on the order in
    which the parameters of the query, each of which has its own name, are
    met. *)
Theorem withOverrides_order (urlValues urlValues' : list (string * list string)) :
  urlValues ≡ₚ urlValues' → NoDup urlValues.*1 →
  ∀ o r, withOverrides Quote o urlValues = Returns r →
         withOverrides Quote o urlValues' = Returns r.
Proof.
  induction 1 as [|[p v] l l' Hperm IH|[p2 v2] [p1 v1] l|l l' l'' H1 IH1 H2 IH2];
    intros Hnd o r.
  - done.
  - cbn [withOverrides]. apply NoDup_cons in Hnd as [_ Hnd].
    destruct (override Quote o p v); [|done..]. by apply IH.
  - cbn [withOverrides].
    destruct (override Quote o p1 v1) as [o1| |] eqn:E1; [|done..].
    destruct (override Quote o1 p2 v2) as [o2| |] eqn:E2; [|done..].
    intros Hr.
    assert (p1 ≠ p2) as Hne.
    { cbn in Hnd. apply NoDup_cons in Hnd as [Hnotin _]. intros <-.
      apply Hnotin. apply elem_of_cons. by left. }
    destruct (override_commute _ _ _ _ _ _ _ Hne E1 E2) as (o1' & -> & ->). done.
  - intros Hr. apply IH2; [by rewrite <- H1|]. by apply IH1.
Qed.


(** ** Opening a bucket from a URL *)

(** X15: [OpenBucketURL] asks for a client at most once, and gives a bucket
    only for a host that is not empty, after [withOverrides] and
    [NewServiceURL] have both succeeded and the one call of [MakeClient], on
    the service URL of the options as overridden, has given a client. *)
Theorem OpenBucketURL_opens (o : URLOpener) (query : list (string * list string))
    (host : string) :
  (length (OpenBucketURL Quote o query host).1 ≤ 1)%nat ∧
  ∀ b, (OpenBucketURL Quote o query host).2 = Returns b →
    host ≠ EmptyString ∧
    ∃ opts svcURL svcClient,
      withOverrides Quote (Opener_ServiceURLOptions o) query = Returns opts ∧
      NewServiceURL Quote (Some opts) = Returns svcURL ∧
      MakeClient o svcURL = (Some svcClient, None) ∧
      (OpenBucketURL Quote o query host).1 = [svcURL] ∧
      (NewContainerClient svcClient host).2 = None ∧
      client b = (NewContainerClient svcClient host).1.
Proof.
  unfold OpenBucketURL.
  destruct (withOverrides _ _ _) as [opts| |] eqn:Eo;
    [|split; [cbn; lia|intros b Hb; cbn in Hb; done]..].
  destruct (NewServiceURL _ _) as [svcURL| |] eqn:Eu;
    [|split; [cbn; lia|intros b Hb; cbn in Hb; done]..].
  destruct (MakeClient o svcURL) as [svcClient [err|]] eqn:Em;
    [split; [cbn; lia|intros b Hb; cbn in Hb; done]|].
  split; [cbn; lia|]. intros b. cbn [fst snd]. unfold OpenBucket, openBucket.
  destruct svcClient as [svcClient|]; [|done].
  destruct (String.eqb_spec host EmptyString) as [->|Hhost]; [done|].
  destruct (NewContainerClient svcClient host) as [c [err|]] eqn:Ec; [done|].
  intros [= <-]. split; [done|]. exists opts, svcURL, svcClient.
  rewrite Ec. repeat (split; [done|]). done.
Qed.


End service_url_facts.

Lemma NewServiceURL_shape_witness :
  NewServiceURL id (Some {| AccountName := "acct"; SASToken := "sv=1&sig=x";
                               StorageDomain := EmptyString; Protocol := EmptyString;
                               IsCDN := false; IsLocalEmulator := false |})
  = Returns "https://acct.blob.core.windows.net?sv=1&sig=x" ∧
  String.prefix "https://" "https://acct.blob.core.windows.net?sv=1&sig=x" = true.
Proof.
  split; [reflexivity|].
  destruct (NewServiceURL_shape id
    {| AccountName := "acct"; SASToken := "sv=1&sig=x"; StorageDomain := EmptyString;
       Protocol := EmptyString; IsCDN := false; IsLocalEmulator := false |}
    "https://acct.blob.core.windows.net?sv=1&sig=x" eq_refl) as [[H|H] _];
    [exact H|discriminate H].
Defined.

Lemma withOverrides_succeeds_witness :
  ∃ r, withOverrides id (account "a") [("cdn"%string, ["true"%string])] = Returns r ∧
       IsCDN r = true ∧ SASToken r = SASToken (account "a").
Proof.
  eexists. split; [reflexivity|]. split; [reflexivity|].
  exact (proj2 (withOverrides_succeeds id (account "a")
                  [("cdn"%string, ["true"%string])]) _ eq_refl).
Defined.

Lemma withOverrides_order_witness :
  withOverrides id (account "a")
    [("cdn"%string, ["true"%string]); ("domain"%string, ["example.com"%string])]
  = withOverrides id (account "a")
      [("domain"%string, ["example.com"%string]); ("cdn"%string, ["true"%string])].
Proof.
  symmetry.
  apply (withOverrides_order id
           [("domain"%string, ["example.com"%string]); ("cdn"%string, ["true"%string])]
           [("cdn"%string, ["true"%string]); ("domain"%string, ["example.com"%string])]).
  - apply Permutation_swap.
  - apply (bool_decide_unpack _). reflexivity.
  - reflexivity.
Defined.

Lemma OpenBucketURL_opens_witness :
  ∃ b, (OpenBucketURL id (simple_opener (account "acct"))
          [("protocol"%string, ["http"%string])] "container").2 = Returns b ∧
       (OpenBucketURL id (simple_opener (account "acct"))
          [("protocol"%string, ["http"%string])] "container").1
       = ["http://acct.blob.core.windows.net"%string].
Proof.
  eexists. split; [reflexivity|].
  destruct (OpenBucketURL_opens id (simple_opener (account "acct"))
              [("protocol"%string, ["http"%string])] "container") as [_ H].
  destruct (H _ eq_refl) as (_ & opts & svcURL & svcClient & Ho & Hu & _ & -> & _).
  cbn in Ho. injection Ho as <-. cbn in Hu. by injection Hu as <-.
Defined.


(** ** Credentials from the environment *)

(** X16: of the credentials the environment offers, the shared key is taken
    before the SAS token and the SAS token before the connection string; the
    account key is kept with the shared key only, and the connection string
    with the connection string credential only. *)
Theorem newCredInfoFromEnv_priority (Getenv : environment) :
  let c := newCredInfoFromEnv Getenv in
  (CredType c = credTypeSharedKey ↔
     Getenv "AZURE_STORAGE_ACCOUNT" ≠ EmptyString ∧ Getenv "AZURE_STORAGE_KEY" ≠ EmptyString) ∧
  (CredType c = credTypeSASViaNone ↔
     CredType c ≠ credTypeSharedKey ∧ Getenv "AZURE_STORAGE_SAS_TOKEN" ≠ EmptyString) ∧
  (CredType c = credTypeConnectionString ↔
     CredType c ≠ credTypeSharedKey ∧ Getenv "AZURE_STORAGE_SAS_TOKEN" = EmptyString ∧
     Getenv "AZURE_STORAGE_CONNECTION_STRING" ≠ EmptyString) ∧
  (AccountKey c ≠ EmptyString ↔ CredType c = credTypeSharedKey) ∧
  (ConnectionString c ≠ EmptyString ↔ CredType c = credTypeConnectionString).
Proof.
  unfold newCredInfoFromEnv. cbn zeta.
  destruct (String.eqb_spec (Getenv "AZURE_STORAGE_ACCOUNT") EmptyString) as [Ha|Ha];
    destruct (String.eqb_spec (Getenv "AZURE_STORAGE_KEY") EmptyString) as [Hk|Hk];
    destruct (String.eqb_spec (Getenv "AZURE_STORAGE_SAS_TOKEN") EmptyString) as [Hs|Hs];
    destruct (String.eqb_spec (Getenv "AZURE_STORAGE_CONNECTION_STRING") EmptyString)
      as [Hc|Hc];
    cbn; rewrite ?Ha, ?Hk, ?Hs, ?Hc; intuition (congruence || discriminate).
Qed.

(** ** [Copy]: polling to the end *)

Lemma poll_over c ctx fuel n nErrors s :
  s ≠ CopyStatusTypePending →
  poll c ctx fuel n nErrors s = Some ([], Returns s).
Proof. intros Hs. destruct fuel; cbn [poll]; by rewrite decide_False. Qed.

Lemma poll_pending c ctx s nErrors : ∀ n fuel start,
  (∀ i, (i < n)%nat → GetProperties c (start + i) = (Some CopyStatusTypePending, None)) →
  GetProperties c (start + n) = (Some s, None) →
  s ≠ CopyStatusTypePending → (n < fuel)%nat →
  poll c ctx fuel start nErrors CopyStatusTypePending
  = Some (replicate (S n) call_GetProperties, Returns s).
Proof.
  induction n as [|n IH]; intros fuel start Hpending Hdone Hs Hfuel;
    (destruct fuel as [|fuel]; [lia|]); cbn [poll]; rewrite decide_True by done.
  - rewrite Nat.add_0_r in Hdone. rewrite Hdone. by rewrite poll_over.
  - rewrite <- (Nat.add_0_r start) at 1. rewrite (Hpending 0%nat) by lia.
    rewrite (IH fuel (S start)); [done| | |done|lia].
    + intros i Hi. replace (S start + i)%nat with (start + S i)%nat by lia.
      apply Hpending. lia.
    + by replace (S start + n)%nat with (start + S n)%nat by lia.
Qed.

(** X17: when the copy is pending at its start and at the first [n] status
    checks, and the next check finds it over, [Copy] makes those [n + 1]
    checks and no more, and gives success for the status [success] and an
    error that names the status otherwise. *)
Theorem Copy_polls_to_the_end (b : bucket) (ctx : context) (fuel n : nat)
    (dstKey srcKey : gostring) (opts : CopyOptions) (dst src : BlobClient)
    (status : CopyStatusType) :
  NewBlobClient (client b) (escapeKey dstKey false) = (Some dst, None) →
  NewBlobClient (client b) (escapeKey srcKey false) = (Some src, None) →
  BeforeCopy opts = None →
  StartCopyFromURL dst (URL src) {| CopyMetadata := []; Tier := None |}
    = (Some CopyStatusTypePending, None) →
  (∀ i, (i < n)%nat → GetProperties dst i = (Some CopyStatusTypePending, None)) →
  GetProperties dst n = (Some status, None) →
  status ≠ CopyStatusTypePending → (n < fuel)%nat →
  Copy b ctx fuel dstKey srcKey opts
  = Some ([call_NewBlobClient (escapeKey dstKey false);
           call_NewBlobClient (escapeKey srcKey false);
           call_StartCopyFromURL (URL src) {| CopyMetadata := []; Tier := None |}]
          ++ replicate (S n) call_GetProperties,
          if decide (status = CopyStatusTypeSuccess) then Returns ()
          else Fails (errorString ("Copy failed with status: "
                                     +:+ CopyStatusType_String status))).
Proof.
  intros Hdst Hsrc Hhook Hstart Hpending Hdone Hstatus Hfuel.
  unfold Copy. rewrite Hdst, Hsrc, Hhook. cbn [run_hook]. rewrite Hstart.
  rewrite (poll_pending dst ctx status 0 n fuel 0); [|done..].
  by destruct (decide (status = CopyStatusTypeSuccess)).
Qed.

Lemma Copy_polls_to_the_end_witness :
  Copy (container_of (copying_blob (pending_then 3 CopyStatusTypeSuccess))) live 10
    (str "dst") (str "src") {| BeforeCopy := None |}
  = Some ([call_NewBlobClient (str "dst"); call_NewBlobClient (str "src");
           call_StartCopyFromURL
             "https://account.blob.core.windows.net/container/blob"
             {| CopyMetadata := []; Tier := None |};
           call_GetProperties; call_GetProperties; call_GetProperties;
           call_GetProperties],
          Returns ()).
Proof.
  apply (Copy_polls_to_the_end
           (container_of (copying_blob (pending_then 3 CopyStatusTypeSuccess))) live 10 3
           (str "dst") (str "src") {| BeforeCopy := None |}
           (copying_blob (pending_then 3 CopyStatusTypeSuccess))
           (copying_blob (pending_then 3 CopyStatusTypeSuccess))
           CopyStatusTypeSuccess); try reflexivity; try discriminate; try lia.
  intros i Hi. unfold copying_blob, pending_then. cbn [GetProperties].
  apply Nat.ltb_lt in Hi. by rewrite Hi.
Defined.

(** X18: when the copy is over as [StartCopyFromURL] answers, [Copy] checks
    no status at all, however little fuel it has. *)
Theorem Copy_over_at_start (b : bucket) (ctx : context) (fuel : nat)
    (dstKey srcKey : gostring) (opts : CopyOptions) (dst src : BlobClient)
    (status : CopyStatusType) :
  NewBlobClient (client b) (escapeKey dstKey false) = (Some dst, None) →
  NewBlobClient (client b) (escapeKey srcKey false) = (Some src, None) →
  BeforeCopy opts = None →
  StartCopyFromURL dst (URL src) {| CopyMetadata := []; Tier := None |}
    = (Some status, None) →
  status ≠ CopyStatusTypePending →
  Copy b ctx fuel dstKey srcKey opts
  = Some ([call_NewBlobClient (escapeKey dstKey false);
           call_NewBlobClient (escapeKey srcKey false);
           call_StartCopyFromURL (URL src) {| CopyMetadata := []; Tier := None |}],
          if decide (status = CopyStatusTypeSuccess) then Returns ()
          else Fails (errorString ("Copy failed with status: "
                                     +:+ CopyStatusType_String status))).
Proof.
  intros Hdst Hsrc Hhook Hstart Hstatus.
  unfold Copy. rewrite Hdst, Hsrc, Hhook. cbn [run_hook]. rewrite Hstart.
  rewrite poll_over by done.
  by destruct (decide (status = CopyStatusTypeSuccess)).
Qed.

Lemma Copy_over_at_start_witness :
  Copy (container_of (copied_blob CopyStatusTypeAborted)) live 0 (str "dst") (str "src")
    {| BeforeCopy := None |}
  = Some ([call_NewBlobClient (str "dst"); call_NewBlobClient (str "src");
           call_StartCopyFromURL
             "https://account.blob.core.windows.net/container/blob"
             {| CopyMetadata := []; Tier := None |}],
          Fails (errorString "Copy failed with status: aborted")).
Proof.
  apply (Copy_over_at_start (container_of (copied_blob CopyStatusTypeAborted)) live 0
           (str "dst") (str "src") {| BeforeCopy := None |}
           (copied_blob CopyStatusTypeAborted) (copied_blob CopyStatusTypeAborted)
           CopyStatusTypeAborted); try reflexivity. discriminate.
Defined.

(** X19: a status check that fails ends the loop with its own error when
    the context is over at that time, or when it is the third check to fail;
    nothing is looked at of its response. *)
Theorem poll_gives_up (c : BlobClient) (ctx : context) (fuel n : nat) (nErrors : Z)
    (response : option CopyStatusType) (e : error) :
  GetProperties c n = (response, Some e) →
  is_Some (ctx n) ∨ nErrors = 2%Z →
  poll c ctx (S fuel) n nErrors CopyStatusTypePending
  = Some ([call_GetProperties], Fails e).
Proof.
  intros Hg Hend. cbn [poll]. rewrite decide_True by done. rewrite Hg.
  destruct Hend as [Hctx| ->].
  - by rewrite bool_decide_true.
  - by rewrite orb_true_r.
Qed.

Lemma poll_gives_up_witness :
  poll (copying_blob alternating_checks) (λ _, Some (errorString "context canceled"))
    1 0 0 CopyStatusTypePending
  = Some ([call_GetProperties], Fails transient).
Proof.
  apply (poll_gives_up (copying_blob alternating_checks) _ 0 0 0
           (Some CopyStatusTypePending) transient); [reflexivity|].
  left. by eexists.
Defined.

(** ** [ListPaged]: what a page holds *)

Lemma itemObject_Key (l : list BlobItemInternal) (items : list ListObject) :
  mapM itemObject l = Some items →
  Key <$> items = (λ i, unescapeKey (to_String (BlobItem_Name i))) <$> l.
Proof.
  intros H%mapM_Some. induction H as [|x o l items Hx _ IH]; [done|].
  cbn [fmap list_fmap]. f_equal; [|exact IH].
  unfold itemObject in Hx. repeat case_match; try done. by injection Hx as <-.
Qed.

Lemma prefixObject_Key (l : list BlobPrefix) :
  Key <$> (prefixObject <$> l)
  = (λ p, unescapeKey (to_String (BlobPrefix_Name p))) <$> l.
Proof. induction l as [|p l IH]; [done|]. cbn [fmap list_fmap]. by f_equal. Qed.

(** X20: a page that [ListPaged] returns holds the unescaped names of the
    segment it was given, each as many times as it is there, and the next
    marker of the segment as its token; when the segment has directories
    only or blobs only, the keys come in the order of the segment. *)
Theorem ListPaged_entries (b : bucket) (opts : ListOptions)
    (azOpts : ContainerListBlobsHierarchyOptions)
    (segment : ListBlobsHierarchySegmentResponse) (page : ListPage) :
  run_hook (BeforeList opts) (listOptions opts) = (azOpts, None) →
  ListBlobsHierarchy (client b) (escapeKey (Delimiter opts) true) azOpts = (segment, None) →
  (ListPaged b opts).2 = Returns page →
  Key <$> Objects page ≡ₚ segment_keys segment ∧
  NextPageToken page = default EmptyString (NextMarker segment) ∧
  (BlobPrefixes segment = [] ∨ BlobItems segment = [] →
     Key <$> Objects page = segment_keys segment).
Proof.
  intros Hhook Hlist. unfold ListPaged. rewrite Hhook. cbn [after snd]. rewrite Hlist.
  destruct (mapM itemObject (BlobItems segment)) as [items|] eqn:Hitems; [|done].
  cbn [done_ snd]. intros [= <-]. cbn [Objects NextPageToken].
  assert (Key <$> (prefixObject <$> BlobPrefixes segment) ++ items = segment_keys segment)
    as Hkeys.
  { unfold segment_keys. by rewrite fmap_app, prefixObject_Key, (itemObject_Key _ _ Hitems). }
  split; [|split; [done|]].
  - rewrite <- Hkeys. case_match; [|done]. by rewrite sort_Slice_Permutation.
  - intros [Hp|Hi]; rewrite <- Hkeys.
    + by rewrite Hp.
    + rewrite Hi. by rewrite andb_false_r.
Qed.

Lemma ListPaged_entries_witness :
  ∃ page, (ListPaged mixed_container list_all).2 = Returns page ∧
    Key <$> Objects page ≡ₚ [str "b/"; str "c"; str "a\"] ∧
    NextPageToken page = "next"%string.
Proof.
  eexists. split; [reflexivity|].
  match goal with
  | |- Key <$> Objects ?page ≡ₚ _ ∧ _ =>
      destruct (ListPaged_entries mixed_container list_all (listOptions list_all)
                  mixed_segment page eq_refl eq_refl eq_refl) as (H1 & H2 & _)
  end.
  split; [exact H1|exact H2].
Defined.

(** X21: the keys stored are the keys listed.  When the blobs of the
    segment are named by the escaped forms of keys in none of which [__0x]
    occurs, and there are no directories, the page lists those keys, in the
    order of the segment. *)
Theorem ListPaged_lists_keys (b : bucket) (opts : ListOptions)
    (azOpts : ContainerListBlobsHierarchyOptions)
    (segment : ListBlobsHierarchySegmentResponse) (page : ListPage)
    (keys : list gostring) :
  run_hook (BeforeList opts) (listOptions opts) = (azOpts, None) →
  ListBlobsHierarchy (client b) (escapeKey (Delimiter opts) true) azOpts = (segment, None) →
  (ListPaged b opts).2 = Returns page →
  BlobPrefixes segment = [] →
  BlobItem_Name <$> BlobItems segment = (λ k, Some (escapeKey k false)) <$> keys →
  Forall (λ k, has_marker_open k = false) keys →
  Key <$> Objects page = keys.
Proof.
  intros Hhook Hlist Hpage Hprefixes Hnames Hkeys. revert Hpage.
  unfold ListPaged. rewrite Hhook. cbn [after snd]. rewrite Hlist.
  destruct (mapM itemObject (BlobItems segment)) as [items|] eqn:Hitems; [|done].
  cbn [done_ snd]. intros [= <-]. cbn [Objects].
  rewrite Hprefixes. cbn [fmap list_fmap app length Nat.ltb Nat.leb andb].
  assert ((λ n, unescapeKey (to_String n)) <$> ((λ k, Some (escapeKey k false)) <$> keys)
          = keys) as Hback.
  { clear -Hkeys. induction Hkeys as [|k keys Hk _ IH]; [done|]. cbn [fmap list_fmap].
    f_equal; [|exact IH]. cbn. by apply HexUnescape_HexEscape. }
  rewrite (itemObject_Key _ _ Hitems).
  rewrite (list_fmap_compose BlobItem_Name (λ n, unescapeKey (to_String n))), Hnames.
  exact Hback.
Qed.

Lemma ListPaged_lists_keys_witness :
  ∃ page, (ListPaged blobs_container list_all).2 = Returns page ∧
    Key <$> Objects page = [str "a/b"; str "dir/"].
Proof.
  eexists. split; [reflexivity|].
  match goal with
  | |- Key <$> Objects ?page = _ =>
      apply (ListPaged_lists_keys blobs_container list_all (listOptions list_all)
               blobs_segment page [str "a/b"; str "dir/"] eq_refl eq_refl eq_refl
               eq_refl eq_refl)
  end.
  repeat constructor.
Defined.

(** X22: a page size that fits 32 bits is asked of the SDK as it is, and
    whatever is asked fits 32 bits; an empty page token gives no marker, and
    any other is the marker; the prefix is escaped as a prefix. *)
Theorem listOptions_request (opts : ListOptions) :
  (PageSize opts ≠ 0%Z → (- 2 ^ 31 ≤ PageSize opts < 2 ^ 31)%Z →
     MaxResults (listOptions opts) = Some (PageSize opts)) ∧
  (∃ k, MaxResults (listOptions opts) = Some k ∧ (- 2 ^ 31 ≤ k < 2 ^ 31)%Z) ∧
  (Marker (listOptions opts) = None ↔ PageToken opts = EmptyString) ∧
  (∀ token, Marker (listOptions opts) = Some token → token = PageToken opts) ∧
  ListPrefix (listOptions opts) = Some (escapeKey (Prefix opts) true).
Proof.
  unfold listOptions. cbn [MaxResults Marker ListPrefix]. split; [|split; [|split; [|split]]].
  - intros Hne Hrange. apply Z.eqb_neq in Hne. rewrite Hne. f_equal.
    unfold int32. rewrite Z.mod_small; lia.
  - eexists. split; [done|]. unfold int32.
    pose proof (Z.mod_pos_bound
      ((if (PageSize opts =? 0)%Z then defaultPageSize else PageSize opts) + 2 ^ 31)
      (2 ^ 32)). lia.
  - destruct (PageToken opts); cbn; split; done.
  - intros token. by destruct (PageToken opts); cbn; intros [= <-].
  - done.
Qed.

Lemma listOptions_request_witness :
  MaxResults (listOptions {| Prefix := str "a/"; Delimiter := str "/";
                             PageToken := "tok"; PageSize := 50;
                             BeforeList := None |}) = Some 50%Z.
Proof.
  destruct (listOptions_request {| Prefix := str "a/"; Delimiter := str "/";
                                   PageToken := "tok"; PageSize := 50;
                                   BeforeList := None |}) as [H _].
  apply H; cbn; lia.
Defined.

Example listOptions_wraps :
  MaxResults (listOptions {| Prefix := []; Delimiter := []; PageToken := EmptyString;
                             PageSize := 2 ^ 32 + 7; BeforeList := None |}) = Some 7%Z.
Proof. reflexivity. Qed.

(** ** Hooks that fail *)

(** X23: when a [Before] hook fails, its error is what the operation gives,
    and the request the hook was shown is not sent: [ListPaged] makes no call
    at all, [SignedURL] signs nothing, [NewRangeReader] downloads nothing and
    [Copy] starts no copy. *)
Theorem failing_hook_stops (b : bucket) (err : error) :
  (∀ opts f request,
     BeforeList opts = Some f → f (listOptions opts) = (request, Some err) →
     ListPaged b opts = ([], Fails err)) ∧
  (∀ now key opts f perms perms' blobClient,
     ContentType opts = EmptyString → EnforceAbsentContentType opts = false →
     NewBlobClient (client b) (escapeKey key false) = (blobClient, None) →
     methodPermissions (Method opts) = Some perms →
     BeforeSign opts = Some f → f perms = (perms', Some err) →
     SignedURL b now key opts = ([call_NewBlobClient (escapeKey key false)], Fails err)) ∧
  (∀ key offset length opts f request,
     BeforeRead opts = Some f →
     f {| Offset := Some offset;
          Count := if (0 <=? length)%Z then Some length else None |}
       = (request, Some err) →
     NewRangeReader b key offset length opts
       = ([call_NewBlobClient (escapeKey key false)], Fails err)) ∧
  (∀ ctx fuel dstKey srcKey opts f request dst src,
     NewBlobClient (client b) (escapeKey dstKey false) = (dst, None) →
     NewBlobClient (client b) (escapeKey srcKey false) = (src, None) →
     BeforeCopy opts = Some f →
     f {| CopyMetadata := []; Tier := None |} = (request, Some err) →
     Copy b ctx fuel dstKey srcKey opts
       = Some ([call_NewBlobClient (escapeKey dstKey false);
                call_NewBlobClient (escapeKey srcKey false)], Fails err)).
Proof.
  split; [|split; [|split]].
  - intros opts f request Hhook Hf. unfold ListPaged. rewrite Hhook. cbn [run_hook].
    by rewrite Hf.
  - intros now key opts f perms perms' blobClient Hct Henf Hclient Hperms Hhook Hf.
    unfold SignedURL. rewrite Hct, Henf, Hclient, Hperms, Hhook. cbn [run_hook].
    by rewrite Hf.
  - intros key offset length opts f request Hhook Hf. unfold NewRangeReader.
    destruct (NewBlobClient _ _) as [blobClient e]. rewrite Hhook. cbn [run_hook].
    by rewrite Hf.
  - intros ctx fuel dstKey srcKey opts f request dst src Hdst Hsrc Hhook Hf.
    unfold Copy. rewrite Hdst, Hsrc, Hhook. cbn [run_hook]. by rewrite Hf.
Qed.

Lemma failing_hook_stops_witness :
  ListPaged mixed_container
    {| Prefix := []; Delimiter := str "/"; PageToken := EmptyString; PageSize := 0;
       BeforeList := failing_hook hook_error |} = ([], Fails hook_error) ∧
  SignedURL (container_of unsignable_blob) 100 (str "k")
    {| Expiry := 3600; Method := "GET"; ContentType := EmptyString;
       EnforceAbsentContentType := false; BeforeSign := failing_hook hook_error |}
    = ([call_NewBlobClient (str "k")], Fails hook_error) ∧
  NewRangeReader clientless_container (str "k") 0 (-1)
    {| BeforeRead := failing_hook hook_error |}
    = ([call_NewBlobClient (str "k")], Fails hook_error) ∧
  Copy (container_of unsignable_blob) live 0 (str "dst") (str "src")
    {| BeforeCopy := failing_hook hook_error |}
    = Some ([call_NewBlobClient (str "dst"); call_NewBlobClient (str "src")],
            Fails hook_error).
Proof.
  split; [|split; [|split]].
  - destruct (failing_hook_stops mixed_container hook_error) as (H & _).
    by eapply H.
  - destruct (failing_hook_stops (container_of unsignable_blob) hook_error)
      as (_ & H & _).
    by eapply H.
  - destruct (failing_hook_stops clientless_container hook_error) as (_ & _ & H & _).
    by eapply H.
  - destruct (failing_hook_stops (container_of unsignable_blob) hook_error)
      as (_ & _ & _ & H).
    by eapply H.
Defined.

(** ** The writer: what is uploaded *)

(** Once the task has given up, nothing more is read. *)
Lemma pipe_read_stopped (stops : bytes → option error) (buf p : bytes) (err : error) :
  stops buf = Some err → (pipe_read stops buf p).1 = [].
Proof. intros Hs. destruct p as [|b p]; cbn [pipe_read]; by rewrite ?Hs. Qed.

(** What the task reads does not depend on how the bytes are cut into
    writes. *)
Lemma pipe_read_app (stops : bytes → option error) (p1 p2 : bytes) : ∀ buf : bytes,
  (pipe_read stops buf (p1 ++ p2)).1 =
  (pipe_read stops buf p1).1
    ++ (pipe_read stops (buf ++ (pipe_read stops buf p1).1) p2).1.
Proof.
  induction p1 as [|b p1 IH]; intros buf.
  - cbn [pipe_read app fst]. by rewrite app_nil_r.
  - cbn [pipe_read app]. destruct (stops buf) as [err|] eqn:Hs.
    + cbn [fst app]. rewrite app_nil_r. symmetry. by eapply pipe_read_stopped.
    + specialize (IH (buf ++ [b])).
      destruct (pipe_read stops (buf ++ [b]) (p1 ++ p2)) as [r e].
      destruct (pipe_read stops (buf ++ [b]) p1) as [r1 e1].
      cbn [fst] in *. rewrite IH. cbn [app]. by rewrite <- app_assoc.
Qed.

(** A task that never gives up reads everything. *)
Lemma pipe_read_all (stops : bytes → option error) (p : bytes) : ∀ buf : bytes,
  (∀ q, stops q = None) → pipe_read stops buf p = (p, None).
Proof.
  intros buf Hs. revert buf.
  induction p as [|b p IH]; intros buf; cbn [pipe_read]; [done|].
  by rewrite Hs, IH.
Qed.

(** A write on a writer that has its pipe adds to the pipe what the task
    reads of it and changes nothing else. *)
Lemma Write_piped (w : writer) (buf p : bytes) :
  writer_w w = Some buf →
  writer_w (Write w p).1 = Some (buf ++ (pipe_read (upload_stops w) buf p).1) ∧
  writer_task (Write w p).1 = writer_task w ∧
  writer_client (Write w p).1 = writer_client w ∧
  writer_uploadOpts (Write w p).1 = writer_uploadOpts w.
Proof.
  intros Hw. unfold Write. destruct p as [|b p].
  - change (length (@nil Byte.byte) =? 0)%nat with true. cbn [fst pipe_read].
    by rewrite app_nil_r.
  - change (length (b :: p) =? 0)%nat with false. rewrite Hw. unfold pipe_Write. rewrite Hw. cbn [from_option id].
    by destruct (pipe_read (upload_stops w) buf (b :: p)).
Qed.

Lemma upload_stops_ext (w w' : writer) :
  writer_client w' = writer_client w → writer_uploadOpts w' = writer_uploadOpts w →
  upload_stops w' = upload_stops w.
Proof. unfold upload_stops. by intros -> ->. Qed.

Lemma writes_piped (ps : list bytes) : ∀ (w : writer) (buf : bytes),
  writer_w w = Some buf →
  writer_w (foldl (λ w p, (Write w p).1) w ps)
    = Some (buf ++ (pipe_read (upload_stops w) buf (concat ps)).1) ∧
  writer_task (foldl (λ w p, (Write w p).1) w ps) = writer_task w ∧
  writer_client (foldl (λ w p, (Write w p).1) w ps) = writer_client w ∧
  writer_uploadOpts (foldl (λ w p, (Write w p).1) w ps) = writer_uploadOpts w.
Proof.
  induction ps as [|p ps IH]; intros w buf Hw; cbn [foldl concat].
  - cbn [pipe_read fst]. by rewrite app_nil_r.
  - destruct (Write_piped w buf p Hw) as (W1 & W2 & W3 & W4).
    destruct (IH _ _ W1) as (H1 & H2 & H3 & H4).
    rewrite H1, H2, H3, H4, W2, W3, W4, (upload_stops_ext w _ W3 W4).
    by rewrite pipe_read_app, <- app_assoc.
Qed.

(** The first write that is not empty makes the pipe and starts the upload
    task on its read end. *)
Lemma Write_fresh (w : writer) (p : bytes) :
  writer_w w = None → (length p =? 0)%nat = false →
  writer_w (Write w p).1 = Some (pipe_read (upload_stops w) [] p).1 ∧
  writer_task (Write w p).1 = Some task_pipe ∧
  writer_client (Write w p).1 = writer_client w ∧
  writer_uploadOpts (Write w p).1 = writer_uploadOpts w.
Proof.
  intros Hw Hp. unfold Write. rewrite Hp, Hw. cbn [open]. unfold pipe_Write.
  cbn [writer_w writer_client writer_uploadOpts writer_task from_option id].
  destruct p as [|b p]; [done|].
  change (upload_stops _) with (upload_stops w).
  by destruct (pipe_read (upload_stops w) [] (b :: p)).
Qed.

(** From a writer without a pipe, the writes either leave it as it is, when
    all of them are empty, or make the pipe, start the upload task on its
    read end, and put in it, in their order, the bytes the task reads. *)
Lemma writes_fresh (ps : list bytes) : ∀ w : writer,
  writer_w w = None →
  writer_client (foldl (λ w p, (Write w p).1) w ps) = writer_client w ∧
  writer_uploadOpts (foldl (λ w p, (Write w p).1) w ps) = writer_uploadOpts w ∧
  if forallb (λ p, (length p =? 0)%nat) ps
  then foldl (λ w p, (Write w p).1) w ps = w
  else writer_w (foldl (λ w p, (Write w p).1) w ps)
         = Some (pipe_read (upload_stops w) [] (concat ps)).1
       ∧ writer_task (foldl (λ w p, (Write w p).1) w ps) = Some task_pipe.
Proof.
  induction ps as [|p ps IH]; intros w Hw; cbn [foldl concat forallb]; [done|].
  destruct (length p =? 0)%nat eqn:Hp.
  - assert ((Write w p).1 = w) as -> by (unfold Write; by rewrite Hp).
    apply Nat.eqb_eq, nil_length_inv in Hp as ->. cbn [andb app]. by apply IH.
  - destruct (Write_fresh w p Hw Hp) as (W1 & W2 & W3 & W4).
    destruct (writes_piped ps _ _ W1) as (H1 & H2 & H3 & H4).
    cbn [andb]. rewrite H1, H2, H3, H4, W2, W3, W4, (upload_stops_ext w _ W3 W4).
    by rewrite pipe_read_app.
Qed.

(** X24: a writer made without a pipe uploads once, at [Close].  When every
    write was empty, and when there was none, the body is [http.NoBody] and
    [Close] gives the error of that upload.  Otherwise the body is the pipe,
    and what went through it is what the upload read of the bytes written,
    in their order and however they were cut into writes: all of them when
    the upload never gives up, and else those before the point where it gave
    up.  [Close] then gives the error the upload gave up with, and else its
    error at the end of the pipe; and once the upload has given up, a write
    that is not empty returns that error and puts nothing in the pipe. *)
Theorem Close_uploads_what_was_read (w : writer) (c : BlockBlobClient)
    (ps : list bytes) :
  writer_w w = None → writer_client w = Some c →
  let opts := writer_uploadOpts w in
  let stops := λ read, UploadStream c (PipeReader_open read) opts in
  let read := (pipe_read stops [] (concat ps)).1 in
  let w' := foldl (λ w p, (Write w p).1) w ps in
  (forallb (λ p, (length p =? 0)%nat) ps = true →
     (Close w').2 =
       Some ([call_UploadStream NoBody opts],
             match UploadStream c NoBody opts with
             | Some err => Fails err
             | None => Returns ()
             end)) ∧
  (forallb (λ p, (length p =? 0)%nat) ps = false →
     (Close w').2 =
       Some ([call_UploadStream (PipeReader read) opts],
             match stops read, UploadStream c (PipeReader read) opts with
             | Some err, _ => Fails err
             | None, Some err => Fails err
             | None, None => Returns ()
             end) ∧
     ∀ err p, stops read = Some err → p ≠ [] →
       Write w' p = (w', (0%Z, Some err))) ∧
  ((∀ q, stops q = None) → read = concat ps).
Proof.
  intros Hw Hc opts stops read w'.
  assert (upload_stops w = stops) as Hstops by (unfold upload_stops; by rewrite Hc).
  destruct (writes_fresh ps w Hw) as (Hclient & Hopts & Hstate).
  fold w' in Hclient, Hopts, Hstate. rewrite Hstops in Hstate. fold read in Hstate.
  split; [|split].
  - intros Hall. rewrite Hall in Hstate. rewrite Hstate.
    unfold Close. rewrite Hw. unfold wait, open. cbn.
    rewrite Hc. unfold after, done_. fold opts. by destruct (UploadStream c NoBody opts).
  - intros Hall. rewrite Hall in Hstate. destruct Hstate as [Hpipe Htask].
    assert (upload_stops w' = stops) as Hstops'
      by (rewrite <- Hstops; by apply upload_stops_ext).
    split.
    + unfold Close. rewrite Hpipe. unfold wait. cbn [snd].
      rewrite Htask, Hpipe, Hclient, Hc, Hopts, Hstops'. cbn [from_option id].
      unfold after, done_. fold opts.
      by destruct (stops read), (UploadStream c (PipeReader read) opts).
    + intros err p Hs Hp. destruct p as [|b p]; [done|].
      unfold Write. change (length (b :: p) =? 0)%nat with false.
      rewrite Hpipe. unfold pipe_Write.
      rewrite Hpipe, Hstops'. cbn [from_option id pipe_read]. rewrite Hs.
      clear -Hpipe. clearbody w' read. destruct w' as [wc wo ww wt].
      cbn in *. subst ww. by rewrite app_nil_r.
  - intros Hnever. unfold read. by rewrite pipe_read_all.
Qed.

Lemma Close_uploads_what_was_read_witness :
  let w := {| writer_client := Some (giving_up_client 2 transient);
              writer_uploadOpts :=
                {| Upload_BufferSize := defaultUploadBlockSize;
                   MaxBuffers := defaultUploadBuffers; Upload_Metadata := ∅;
                   BlobCacheControl := EmptyString;
                   BlobContentDisposition := EmptyString;
                   BlobContentEncoding := EmptyString;
                   BlobContentLanguage := EmptyString; BlobContentMD5 := [];
                   BlobContentType := "text/plain" |};
              writer_w := None; writer_task := None |} in
  (Write (Write (Write w [Byte.x68]).1 []).1 [Byte.x69; Byte.x21]).2
    = (1%Z, Some transient) ∧
  (Close (foldl (λ w p, (Write w p).1) w [[Byte.x68]; []; [Byte.x69; Byte.x21]])).2 =
    Some ([call_UploadStream (PipeReader [Byte.x68; Byte.x69]) (writer_uploadOpts w)],
          Fails transient).
Proof.
  intros w. split; [reflexivity|].
  exact (proj1 (proj1 (proj2 (Close_uploads_what_was_read w _
           [[Byte.x68]; []; [Byte.x69; Byte.x21]] eq_refl eq_refl)) eq_refl)).
Defined.

(** ** [SignedURL]: what is signed *)

(** X25: with no [BeforeSign] hook, the token [SignedURL] asks for starts
    now, ends [Expiry] later, and carries the permissions of the method and
    no other: reading for GET only, creating and writing for PUT only,
    deleting for DELETE only. *)
Theorem SignedURL_signs (b : bucket) (now : Z) (key : gostring) (opts : SignedURLOptions)
    (perms : BlobSASPermissions) (start expiry : Z) :
  BeforeSign opts = None →
  call_GetSASToken perms start expiry ∈ (SignedURL b now key opts).1 →
  start = now ∧ expiry = (now + Expiry opts)%Z ∧
  (Read perms = true ↔ Method opts = "GET") ∧
  (Create perms = true ↔ Method opts = "PUT") ∧
  (Write_ perms = true ↔ Method opts = "PUT") ∧
  (Delete perms = true ↔ Method opts = "DELETE").
Proof.
  intros Hhook. unfold SignedURL. rewrite Hhook.
  destruct (negb _ || _); [by intros ?%elem_of_nil|].
  cbn [after fst]. intros [?|Hin]%elem_of_cons; [done|]. revert Hin.
  destruct (NewBlobClient _ _) as [blobClient [err|]]; [by intros ?%elem_of_nil|].
  unfold methodPermissions.
  destruct (String.eqb_spec (Method opts) "GET") as [Hm|Hget];
    [|destruct (String.eqb_spec (Method opts) "PUT") as [Hm|Hput];
      [|destruct (String.eqb_spec (Method opts) "DELETE") as [Hm|Hdel]]];
    cbn [run_hook]; try (by intros ?%elem_of_nil);
    (destruct blobClient as [blobClient|]; [|by intros ?%elem_of_nil]);
    cbn [after fst];
    match goal with
    | |- context [GetSASToken ?c ?p ?s ?e] => destruct (GetSASToken c p s e) as [q e']
    end; cbn [done_ fst];
    intros [[= -> -> ->]|?%elem_of_nil]%elem_of_cons; try done;
    rewrite Hm; cbn; intuition (congruence || discriminate).
Qed.

Lemma SignedURL_signs_witness :
  call_GetSASToken {| Read := false; Create := true; Write_ := true; Delete := false |}
    100 3700 ∈ (SignedURL (container_of unsignable_blob) 100 (str "k") (sign "PUT")).1 ∧
  (3700 = 100 + Expiry (sign "PUT"))%Z.
Proof.
  assert (call_GetSASToken
            {| Read := false; Create := true; Write_ := true; Delete := false |}
            100 3700
          ∈ (SignedURL (container_of unsignable_blob) 100 (str "k") (sign "PUT")).1)
    as Hin.
  { apply list_elem_of_lookup. exists 1%nat. reflexivity. }
  split; [exact Hin|].
  exact (proj1 (proj2 (SignedURL_signs (container_of unsignable_blob) 100 (str "k")
                         (sign "PUT") _ 100 3700 eq_refl Hin))).
Defined.

(** ** [NewRangeReader]: what is asked and what is handed out *)


